(** * SenseBox map: the refresh cycle and the popup's history projection

    A shallow embedding of [src/App.jsx] (the chart popup) and of the
    list-popup variant of the same component, followed by the properties
    of the refresh cycle, of the history window and of the line chart.

    Conventions of the embedding:
    - a JavaScript array is a [list]; a number is an IEEE 754 double, the
      primitive [float] of the prover, with its rounding, its infinities
      and NaN; the positions of the catalog, which are only handed on to
      the map, are kept as the decimals they are written as;
    - [null] is [None];
    - React state is a record that every handler takes and returns;
    - the state of a promise is a value of [App.Promise]; the order in
      which the requests of a cycle come back is an explicit list;
    - [Math.random] reads from an explicit stream of draws;
    - an exception is a value of [Result]; the functions of date-fns and
      of [Number.prototype] are the members of the class [Formatting],
      [format] throwing on a date that is not valid. *)

From Stdlib Require Import List Permutation ZArith QArith String Arith Lia Floats Uint63.
Import ListNotations.

(* Decimal literals such as 0.1 stand for the nearest double, as in
   JavaScript. *)
#[local] Set Warnings "-inexact-float".

Local Open Scope list_scope.
Local Open Scope string_scope.

(** ** JavaScript library functions used by the component *)

Module JS.

(** [Array.prototype.slice(start)] with a single argument: a negative
    [start] counts from the end, and the start index is clamped to
    [0 .. length]. *)
Definition slice {A : Type} (start : Z) (xs : list A) : list A :=
  let len := Z.of_nat (List.length xs) in
  let k := if (start <? 0)%Z then Z.max (len + start) 0 else Z.min start len in
  skipn (Z.to_nat k) xs.

(** [[...xs].reverse()]. *)
Definition reverse {A : Type} (xs : list A) : list A := rev xs.

(** [xs[i]]: [None] stands for [undefined]. *)
Definition at_index {A : Type} (xs : list A) (i : Z) : option A :=
  if (i <? 0)%Z then None else nth_error xs (Z.to_nat i).

(** [String.prototype.slice(from, to)] for [0 <= from <= to]. *)
Definition string_slice (from to : nat) (s : string) : string :=
  substring from (to - from) s.

(** [Array.prototype.map] with the index passed to the callback. *)
Fixpoint map_from {A B : Type} (f : A -> nat -> B) (i : nat) (xs : list A) : list B :=
  match xs with
  | [] => []
  | x :: rest => f x i :: map_from f (S i) rest
  end.

Definition mapi {A B : Type} (f : A -> nat -> B) (xs : list A) : list B :=
  map_from f 0 xs.

(** [Array.prototype.join(sep)] on strings. *)
Fixpoint join (sep : string) (xs : list string) : string :=
  match xs with
  | [] => ""
  | [x] => x
  | x :: rest => x ++ sep ++ join sep rest
  end.

(** A small non-negative integer (an index, a length) as a number; exact
    below [2 ^ 53], and the length of an array is below [2 ^ 32]. *)
Definition number_of_Z (n : Z) : float := PrimFloat.of_uint63 (Uint63.of_Z n).

Definition is_negative_zero (x : float) : bool :=
  match PrimFloat.classify x with
  | NZero => true
  | _ => false
  end.

Definition is_positive_zero (x : float) : bool :=
  match PrimFloat.classify x with
  | PZero => true
  | _ => false
  end.

(** [Math.min(...values)]: the lowest so far starts at [+Infinity]; a NaN
    among the values makes the result NaN; [-0] is below [+0]. *)
Fixpoint Math_min_from (lowest : float) (values : list float) : float :=
  match values with
  | [] => lowest
  | number :: rest =>
      if PrimFloat.is_nan number then nan
      else if is_negative_zero number && is_positive_zero lowest
      then Math_min_from number rest
      else if PrimFloat.ltb number lowest then Math_min_from number rest
      else Math_min_from lowest rest
  end.

Definition Math_min (values : list float) : float := Math_min_from infinity values.

(** [Math.max(...values)]: the highest so far starts at [-Infinity]; a NaN
    among the values makes the result NaN; [+0] is above [-0]. *)
Fixpoint Math_max_from (highest : float) (values : list float) : float :=
  match values with
  | [] => highest
  | number :: rest =>
      if PrimFloat.is_nan number then nan
      else if is_positive_zero number && is_negative_zero highest
      then Math_max_from number rest
      else if PrimFloat.ltb highest number then Math_max_from number rest
      else Math_max_from highest rest
  end.

Definition Math_max (values : list float) : float := Math_max_from neg_infinity values.

End JS.

(** ** Data *)

(** One element of the JSON array served for a device. *)
Record Reading : Type := {
ts : string;
temperature : float;
humidity : float;
illu : float;
light : float
}.

(** An entry of [SENSEBOXES]. *)
Record Sensebox : Type := {
id : nat;
name : string;
position : Q * Q;
file : string
}.

(** [{ ...box, readings }]: an element of the [boxes] state. *)
Record Box : Type := {
box : Sensebox;
readings : list Reading
}.

Definition MAP_CENTER : Q * Q := (51.2524, 7.1287)%Q.
Definition BASE_URL : string := "https://tmdt-solid-community-server.de/iotworkshop/public".
Definition REFRESH_INTERVAL : Z := 60000.

Definition SENSEBOXES : list Sensebox := [
{| id := 0; name := "SenseBox 0";
   position := (51.25249146683472, 7.128714956019335)%Q; file := "sensebox0.json" |};
{| id := 1; name := "SenseBox 1";
   position := (51.25234545733288, 7.128517708781204)%Q; file := "sensebox1.json" |};
{| id := 2; name := "SenseBox 2";
   position := (51.25247128668728, 7.128386842825138)%Q; file := "sensebox2.json" |};
{| id := 3; name := "SenseBox 3";
   position := (51.252534201235335, 7.1285670205907365)%Q; file := "sensebox3.json" |};
{| id := 4; name := "SenseBox 4";
   position := (51.2523240900498, 7.1288515117995805)%Q; file := "sensebox4.json" |}
].

(** ** The popup: latest reading and history window *)

Module Popup.

(** [box.readings && box.readings.length > 0] *)
Definition hasData (b : Box) : bool :=
  (0 <? Z.of_nat (List.length (readings b)))%Z.

(** [hasData ? box.readings[box.readings.length - 1] : null] *)
Definition latest (b : Box) : option Reading :=
  if hasData b
  then JS.at_index (readings b) (Z.of_nat (List.length (readings b)) - 1)
  else None.

(** [hasData ? box.readings.slice(-20) : []] (the chart popup). *)
Definition history (b : Box) : list Reading :=
  if hasData b then JS.slice (-20) (readings b) else [].

(** [hasData ? [...box.readings.slice(-5)].reverse() : []] (the list
    popup of the variant without charts). *)
Definition recent (b : Box) : list Reading :=
  if hasData b then JS.reverse (JS.slice (-5) (readings b)) else [].

End Popup.

(** ** Exceptions *)

(** What a call comes back with: a value, or an exception that nothing in
    the component catches. *)
Inductive Result (A : Type) : Type :=
| Returns (value : A)
| Throws (exception : string).
Arguments Returns {A} value.
Arguments Throws {A} exception.

Definition bind {A B : Type} (x : Result A) (f : A -> Result B) : Result B :=
  match x with
  | Returns value => f value
  | Throws exception => Throws exception
  end.

Notation "x <- e ;; k" := (bind e (fun x => k))
  (at level 61, e at next level, right associativity).

(** ** External formatting functions

    [isValid ts] tells whether [parseISO(ts)] is a valid date, and
    [format_date ts pattern] is what date-fns [format] prints for it then;
    [toFixed] is [Number.prototype.toFixed] and [toString] the conversion
    of a number inside a template literal, both of which return for every
    number.  Nothing below depends on what they print. *)

Class Formatting : Type := {
  isValid : string -> bool;
  format_date : string -> string -> string;
  toFixed : float -> nat -> string;
  toString : float -> string
}.

(** [format(parseISO(ts), pattern)]: date-fns [format] throws a
    [RangeError] when the date is not valid. *)
Definition format_parseISO {fmt : Formatting} (ts pattern : string) : Result string :=
  if isValid ts then Returns (format_date ts pattern)
  else Throws "RangeError: Invalid time value".

(** ** [Math.random] and [useRef] *)

(** The source of randomness: [draws n] is the text that
    [Math.random().toString(36)] yields at the [n]-th call. *)
Record Random : Type := {
  draws : nat -> string;
  cursor : nat
}.

Definition Math_random_toString36 (r : Random) : string * Random :=
  (draws r (cursor r), {| draws := draws r; cursor := S (cursor r) |}).

(** [useRef(initial).current]: the cell of a component instance is empty
    ([None]) until its first render, and keeps its first value afterwards. *)
Definition useRef (initial : string) (cell : option string) : string * option string :=
  match cell with
  | None => (initial, Some initial)
  | Some current => (current, Some current)
  end.

(** ** The line chart *)

Module Chart.

Inductive Field : Type := Temperature | Humidity | Illu | Light.

(** The property name passed as [valueKey]. *)
Definition key (k : Field) : string :=
  match k with
  | Temperature => "temperature"
  | Humidity => "humidity"
  | Illu => "illu"
  | Light => "light"
  end.

(** [entry[valueKey]] *)
Definition get (k : Field) (entry : Reading) : float :=
  match k with
  | Temperature => temperature entry
  | Humidity => humidity entry
  | Illu => illu entry
  | Light => light entry
  end.

Definition width : float := 280%float.
Definition height : float := 120%float.

(** [index / Math.max(values.length - 1, 1) * width] *)
Definition x_of (len : nat) (index : nat) : float :=
  (JS.number_of_Z (Z.of_nat index)
   / JS.Math_max [(JS.number_of_Z (Z.of_nat len) - 1)%float; 1%float]
   * width)%float.

(** [range === 0 ? 0.5 : (value - minValue) / range] *)
Definition normalized (minValue range value : float) : float :=
  if (range =? 0)%float then 0.5%float else ((value - minValue) / range)%float.

(** [height - normalized * height] *)
Definition y_of (minValue range value : float) : float :=
  (height - normalized minValue range value * height)%float.

(** The coordinates computed by the callback of [values.map], before they
    are printed into the [points] attribute. *)
Definition coords (values : list float) : list (float * float) :=
  let minValue := JS.Math_min values in
  let maxValue := JS.Math_max values in
  let range := (maxValue - minValue)%float in
  JS.mapi (fun value index => (x_of (List.length values) index, y_of minValue range value))
          values.

Record Props : Type := {
  data : list Reading;
  valueKey : Field;
  color : string;
  label : string;
  valueFormatter : float -> string
}.

(** The rendered [<div className="line-chart">]. *)
Record View : Type := {
  header_label : string;
  header_value : string;
  viewBox : string;
  gradient_id : string;
  rect_fill : string;
  stroke : string;
  points : string;
  footer_first : string;
  footer_minmax : string;
  footer_last : string
}.

Section Render.
Context {fmt : Formatting}.

(** [`gradient-${valueKey}-${Math.random().toString(36).slice(2, 9)}`] *)
Definition fresh_gradient_id (k : Field) (r : Random) : string * Random :=
  let (text, r') := Math_random_toString36 r in
  ("gradient-" ++ key k ++ "-" ++ JS.string_slice 2 9 text, r').

(** [firstLabel] and [lastLabel]: the first and the last timestamp of the
    data as [HH:mm], the empty text when there is none. *)
Definition footer_labels (timestamps : list string) : Result (string * string) :=
  firstLabel <-
    match JS.at_index timestamps 0 with
    | Some t => format_parseISO t "HH:mm"
    | None => Returns ""
    end ;;
  lastLabel <-
    match JS.at_index timestamps (Z.of_nat (List.length timestamps) - 1) with
    | Some t => format_parseISO t "HH:mm"
    | None => Returns ""
    end ;;
  Returns (firstLabel, lastLabel).

(** [LineChart]: [None] is the [return null] of the guard on empty data,
    which comes before the hook.  [cell] is the [useRef] cell of this
    chart instance.  The labels of the footer are formatted after the
    identifier has been drawn; [format] throws on a date that is not
    valid. *)
Definition LineChart (p : Props) (cell : option string) (r : Random)
  : Result (option View * option string) * Random :=
  match data p with
  | [] => (Returns (None, cell), r)
  | entry :: entries =>
      let values := map (get (valueKey p)) (data p) in
      let timestamps := map ts (data p) in
      let minValue := JS.Math_min values in
      let maxValue := JS.Math_max values in
      let (initial, r') := fresh_gradient_id (valueKey p) r in
      let (gradientId, cell') := useRef initial cell in
      let points :=
        JS.join " " (map (fun xy => toString (fst xy) ++ "," ++ toString (snd xy))
                         (coords values)) in
      (labels <- footer_labels timestamps ;;
       (* [values[values.length - 1]] of the values, which are not empty *)
       let latestValue :=
         last (map (get (valueKey p)) entries) (get (valueKey p) entry) in
       Returns
         (Some {| header_label := label p;
                  header_value := valueFormatter p latestValue;
                  viewBox := "0 0 280 120";
                  gradient_id := gradientId;
                  rect_fill := "url(#" ++ gradientId ++ ")";
                  stroke := color p;
                  points := points;
                  footer_first := fst labels;
                  footer_minmax := "Min: " ++ valueFormatter p minValue
                                    ++ " · Max: " ++ valueFormatter p maxValue;
                  footer_last := snd labels |},
          cell'),
       r')
  end.

End Render.

End Chart.

(** ** The rendered popup *)

Module PopupView.

Record Metric : Type := {
  metric_label : string;
  metric_value : string
}.

Inductive Body : Type :=
| Measurements (timestamp : string) (metrics : list Metric)
               (charts : list (option Chart.View))
| Message (text : string).

Record View : Type := {
  title : string;
  body : Body
}.

(** The [useRef] cells of the four charts of one popup. *)
Definition Cells : Type := Chart.Field -> option string.

Definition unmounted : Cells := fun _ => None.

Definition set_cell (k : Chart.Field) (c : option string) (cells : Cells) : Cells :=
  fun k' =>
    match k, k' with
    | Chart.Temperature, Chart.Temperature
    | Chart.Humidity, Chart.Humidity
    | Chart.Illu, Chart.Illu
    | Chart.Light, Chart.Light => c
    | _, _ => cells k'
    end.

Section Render.
Context {fmt : Formatting}.

Definition chart_props (history : list Reading) (k : Chart.Field) : Chart.Props :=
  match k with
  | Chart.Temperature =>
      {| Chart.data := history; Chart.valueKey := k; Chart.color := "#ef4444";
         Chart.label := "Temperatur";
         Chart.valueFormatter := fun value => toFixed value 1 ++ " °C" |}
  | Chart.Humidity =>
      {| Chart.data := history; Chart.valueKey := k; Chart.color := "#3b82f6";
         Chart.label := "Luftfeuchtigkeit";
         Chart.valueFormatter := fun value => toFixed value 1 ++ " %" |}
  | Chart.Illu =>
      {| Chart.data := history; Chart.valueKey := k; Chart.color := "#22c55e";
         Chart.label := "Beleuchtungsstärke";
         Chart.valueFormatter := fun value => toString value ++ " lx" |}
  | Chart.Light =>
      {| Chart.data := history; Chart.valueKey := k; Chart.color := "#f59e0b";
         Chart.label := "Licht";
         Chart.valueFormatter := fun value => toFixed value 2 ++ " V" |}
  end.

(** One [<LineChart .../>] element of the popup, with its own cell.  A
    chart that throws ends the render of the popup. *)
Definition render_chart (history : list Reading) (k : Chart.Field)
    (acc : Result (list (option Chart.View) * Cells) * Random)
  : Result (list (option Chart.View) * Cells) * Random :=
  match acc with
  | (Throws exception, r) => (Throws exception, r)
  | (Returns (views, cells), r) =>
      match Chart.LineChart (chart_props history k) (cells k) r with
      | (Throws exception, r') => (Throws exception, r')
      | (Returns (view, cell'), r') =>
          (Returns ((views ++ [view])%list, set_cell k cell' cells), r')
      end
  end.

(** [SenseboxPopup({ box })].  The timestamp of the latest reading is
    formatted in the body of the component, before its charts are
    rendered in the order in which they are written; without a latest
    reading nothing is formatted and no chart is mounted. *)
Definition SenseboxPopup (b : Box) (cells : Cells) (r : Random)
  : Result (View * Cells) * Random :=
  let latest := Popup.latest b in
  let history := Popup.history b in
  match latest with
  | Some latest =>
      match format_parseISO (ts latest) "dd.MM.yyyy HH:mm:ss" with
      | Throws exception => (Throws exception, r)
      | Returns stamp =>
          match
            render_chart history Chart.Light
              (render_chart history Chart.Illu
                (render_chart history Chart.Humidity
                  (render_chart history Chart.Temperature (Returns ([], cells), r))))
          with
          | (Throws exception, r') => (Throws exception, r')
          | (Returns (charts, cells'), r') =>
              (Returns
                 ({| title := name (box b);
                     body := Measurements
                       ("Letzte Messung: " ++ stamp ++ " Uhr")
                       [ {| metric_label := "Temperatur";
                            metric_value := toFixed (temperature latest) 1 ++ " °C" |};
                         {| metric_label := "Luftfeuchtigkeit";
                            metric_value := toFixed (humidity latest) 1 ++ " %" |};
                         {| metric_label := "Beleuchtungsstärke";
                            metric_value := toString (illu latest) ++ " lx" |};
                         {| metric_label := "Licht";
                            metric_value := toFixed (light latest) 2 ++ " V" |} ]
                       charts |},
                  cells'),
               r')
          end
      end
  | None =>
      (Returns ({| title := name (box b); body := Message "Keine Daten verfügbar." |},
                unmounted),
       r)
  end.

End Render.

End PopupView.

(** ** The application state and one refresh cycle *)

Module App.

Record State : Type := {
  boxes : list Box;
  loading : bool;
  error : option string
}.

(** [useState([])], [useState(true)], [useState(null)]. *)
Definition initial : State :=
  {| boxes := []; loading := true; error := None |}.

(** What the request for one device comes back with. *)
Inductive Response : Type :=
| Ok (body : list Reading)     (* [response.ok], body parsed by [response.json()] *)
| NotOk (status : nat)         (* [!response.ok] *)
| Threw (message : string).    (* [fetch] or [response.json()] rejected *)

Inductive Promise (A : Type) : Type :=
| Pending
| Fulfilled (value : A)
| Rejected (message : string).
Arguments Pending {A}.
Arguments Fulfilled {A} value.
Arguments Rejected {A} message.

(** The async callback given to [SENSEBOXES.map], once its request has
    come back. *)
Definition load (b : Sensebox) (resp : Response) : Promise Box :=
  match resp with
  | Ok body => Fulfilled {| box := b; readings := body |}
  | NotOk _ => Rejected ("Fehler beim Laden von " ++ name b)
  | Threw message => Rejected message
  end.

(** The order in which the requests of one cycle come back: the index of
    the device in the catalog, and its response. *)
Definition Completion : Type := list (nat * Response).

Fixpoint set_slot {A : Type} (i : nat) (x : A) (slots : list (option A)) : list (option A) :=
  match slots, i with
  | [], _ => []
  | _ :: rest, O => Some x :: rest
  | s :: rest, S i' => s :: set_slot i' x rest
  end.

(** All slots filled: the values in the order of the input promises. *)
Fixpoint values {A : Type} (slots : list (option A)) : option (list A) :=
  match slots with
  | [] => Some []
  | None :: _ => None
  | Some x :: rest =>
      match values rest with
      | Some xs => Some (x :: xs)
      | None => None
      end
  end.

(** [Promise.all] over the promises of the catalog entries.  The first
    promise that rejects settles the whole with its reason; the result is
    fulfilled once every promise is, with the values in catalog order; a
    promise settles at most once, so a second event for it is ignored. *)
Fixpoint Promise_all_from (catalog : list Sensebox) (slots : list (option Box))
    (events : Completion) : Promise (list Box) :=
  match values slots with
  | Some results => Fulfilled results
  | None =>
      match events with
      | [] => Pending
      | (i, resp) :: rest =>
          match nth_error catalog i, nth_error slots i with
          | Some b, Some None =>
              match load b resp with
              | Rejected message => Rejected message
              | Fulfilled value => Promise_all_from catalog (set_slot i value slots) rest
              | Pending => Promise_all_from catalog slots rest
              end
          | _, _ => Promise_all_from catalog slots rest
          end
      end
  end.

Definition Promise_all (catalog : list Sensebox) (events : Completion) : Promise (list Box) :=
  Promise_all_from catalog (map (fun _ => None) catalog) events.

(** [fetchData], from the call to the end of its [try]/[catch].
    [isMounted] is the flag of the effect at the time [Promise.all]
    settles; while it is pending nothing is written. *)
Definition fetchData (isMounted : bool) (events : Completion) (st : State) : State :=
  match Promise_all SENSEBOXES events with
  | Fulfilled results =>
      if negb isMounted then st
      else {| boxes := results; loading := false; error := None |}
  | Rejected message =>
      if negb isMounted then st
      else {| boxes := boxes st; loading := false; error := Some message |}
  | Pending => st
  end.

(** Cycles that run one after the other while the component is mounted. *)
Definition cycles (runs : list Completion) (st : State) : State :=
  fold_left (fun s events => fetchData true events s) runs st.

(** What [App] renders from its state: the status lines of the header, the
    markers and the positions the map bounds are computed from. *)
Record View : Type := {
  status : list string;
  markers : list Box;
  bounds_of : list (Q * Q)
}.

(** [x && <p/>] for a string [x]: the empty string is falsy. *)
Definition truthy (s : string) : bool :=
  match s with
  | EmptyString => false
  | _ => true
  end.

Definition render (st : State) : View :=
  {| status :=
       ((if loading st then ["Lade Daten…"] else []) ++
        (match error st with
         | Some message => if truthy message then [message] else []
         | None => []
         end))%list;
     markers := boxes st;
     bounds_of :=
       if (0 <? Z.of_nat (List.length (boxes st)))%Z
       then map (fun b => position (box b)) (boxes st)
       else map position SENSEBOXES |}.

(** The entry of a device in the [boxes] state, by its [id]. *)
Definition entry (device : nat) (st : State) : option Box :=
  find (fun b => Nat.eqb (id (box b)) device) (boxes st).

End App.

(** ** The effect: first call, interval and cleanup *)

Module Effect.

Record Runtime : Type := {
  state : App.State;
  isMounted : bool;     (* [let isMounted = true] of the effect closure *)
  interval : bool;      (* the interval is set and not yet cleared *)
  running : nat         (* calls of [fetchData] that await their [Promise.all] *)
}.

Inductive Event : Type :=
| Tick                              (* the interval timer fires *)
| Settle (events : App.Completion)  (* the [Promise.all] of a running call settles *)
| Cleanup.                          (* the function returned by the effect runs *)

(** The effect body: [fetchData()] is called at once and the interval is
    set. *)
Definition mount : Runtime :=
  {| state := App.initial; isMounted := true; interval := true; running := 1 |}.

Definition step (rt : Runtime) (ev : Event) : Runtime :=
  match ev with
  | Tick =>
      (* [setInterval(fetchData, REFRESH_INTERVAL)]: the callback is
         [fetchData] itself *)
      if interval rt
      then {| state := state rt; isMounted := isMounted rt; interval := true;
              running := S (running rt) |}
      else rt
  | Settle events =>
      match running rt, App.Promise_all SENSEBOXES events with
      | O, _ => rt
      | _, App.Pending => rt
      | S n, _ =>
          {| state := App.fetchData (isMounted rt) events (state rt);
             isMounted := isMounted rt; interval := interval rt; running := n |}
      end
  | Cleanup =>
      {| state := state rt; isMounted := false; interval := false;
         running := running rt |}
  end.

Definition run (rt : Runtime) (evs : list Event) : Runtime :=
  fold_left step evs rt.

End Effect.

(** * Scenarios and the properties as the specification words them *)

Local Close Scope Q_scope.


(** [2 ^ 53] *)
Definition C53 : Z := 9007199254740992.

(** An integer that is ordered as the numbers that are not NaN are. *)
Definition key (x : spec_float) : Z :=
  match x with
  | S754_zero _ => 0
  | S754_infinity s => cond_Zopp s (4096 * C53)
  | S754_nan => 0
  | S754_finite s m e => cond_Zopp s ((e + 1075) * C53 + Zpos m)
  end.


(** The window as the specification words it, for a component whose
    window is computed by [window] with size [w]: [min L w] elements, the
    last [w] of the series, oldest first. *)
Definition last_in_order (window : Box -> list Reading) (w : nat) : Prop :=
  forall b : Box,
    List.length (window b) = Nat.min (List.length (readings b)) w /\
    window b = skipn (List.length (readings b) - w) (readings b).

Definition reading_at (stamp : string) (t : float) : Reading :=
  {| ts := stamp; temperature := t; humidity := 40%float; illu := 300%float;
     light := 1.5%float |}.

Definition scenario_A : Box :=
  {| box := {| id := 0; name := "SenseBox 0";
               position := (51.25249146683472, 7.128714956019335)%Q;
               file := "sensebox0.json" |};
     readings := [ reading_at "2024-01-01T10:00:00Z" 20.0%float;
                   reading_at "2024-01-01T10:01:00Z" 22.0%float ] |}.


Definition is_ok (resp : App.Response) : bool :=
  match resp with
  | App.Ok _ => true
  | _ => false
  end.

(** Every request of the events came back with [response.ok] and a parsed
    body. *)
Definition all_ok (events : App.Completion) : Prop :=
  Forall (fun e => is_ok (snd e) = true) events.

(** The body that the request of device [i] came back with. *)
Definition body_of (i : nat) (events : App.Completion) : list Reading :=
  match find (fun e => Nat.eqb (fst e) i) events with
  | Some (_, App.Ok body) => body
  | _ => []
  end.

(** The catalog with the bodies of a cycle attached. *)
Definition fetched (events : App.Completion) : list Box :=
  JS.mapi (fun s i => {| box := s; readings := body_of i events |}) SENSEBOXES.

(** A cycle in which the request of every device succeeds. *)
Definition succeeds (events : App.Completion) : Prop :=
  all_ok events /\
  forall i : nat, i < List.length SENSEBOXES -> In i (map fst events).

(** A cycle whose first request to fail is that of device [d], with
    message [m]: the requests that came back before it succeeded; what
    comes back after it is unconstrained. *)
Definition fails_first (events : App.Completion) (d : nat) (m : string) : Prop :=
  exists (pre post : App.Completion) (s : Sensebox) (resp : App.Response),
    events = (pre ++ (d, resp) :: post)%list /\
    all_ok pre /\
    ~ In d (map fst pre) /\
    nth_error SENSEBOXES d = Some s /\
    App.load s resp = App.Rejected m.

Definition fails (events : App.Completion) : Prop :=
  exists (d : nat) (m : string), fails_first events d m.

(** A cycle in which only the request of device [d] fails, with message
    [m]; the others that come back, before or after it, succeed. *)
Definition only_failure (events : App.Completion) (d : nat) (m : string) : Prop :=
  exists (pre post : App.Completion) (s : Sensebox) (resp : App.Response),
    events = (pre ++ (d, resp) :: post)%list /\
    all_ok pre /\ all_ok post /\
    ~ In d (map fst pre) /\
    nth_error SENSEBOXES d = Some s /\
    App.load s resp = App.Rejected m.

(** The merge as the specification words it: the entry of a device whose
    request succeeded is the new one, the entry of a device whose request
    failed is the previous one, and the message of the failure is the
    error. *)
Definition merged_per_device (prev : App.State) (events : App.Completion)
    (next : App.State) : Prop :=
  forall (i : nat) (s : Sensebox) (resp : App.Response),
    nth_error SENSEBOXES i = Some s ->
    In (i, resp) events ->
    match App.load s resp with
    | App.Fulfilled b => App.entry (id s) next = Some b
    | App.Rejected m =>
        App.entry (id s) next = App.entry (id s) prev /\ App.error next = Some m
    | App.Pending => True
    end.

Definition series (t0 : float) : list Reading :=
  [ reading_at "2024-01-01T10:00:00Z" t0;
    reading_at "2024-01-01T10:01:00Z" (t0 + 2)%float ].

(** A first cycle: every device answers. *)
Definition first_cycle : App.Completion :=
  [ (3, App.Ok (series 13%float)); (0, App.Ok (series 10%float)); (4, App.Ok (series 14%float));
    (1, App.Ok (series 11%float)); (2, App.Ok (series 12%float)) ].

Definition published : App.State := App.fetchData true first_cycle App.initial.

(** Scenario C: five devices, the request of device 2 returns HTTP 500. *)
Definition scenario_C : App.Completion :=
  [ (0, App.Ok (series 20%float)); (1, App.Ok (series 21%float)); (2, App.NotOk 500);
    (3, App.Ok (series 23%float)); (4, App.Ok (series 24%float)) ].

(** The messages of the requests that failed, in the order in which they
    came back. *)
Definition failure_messages (events : App.Completion) : list string :=
  flat_map (fun e =>
              match nth_error SENSEBOXES (fst e) with
              | Some s =>
                  match App.load s (snd e) with
                  | App.Rejected m => [m]
                  | _ => []
                  end
              | None => []
              end) events.

(** The rule as the specification words it: the last failure wins. *)
Definition last_failure_wins (events : App.Completion) (next : App.State) : Prop :=
  App.error next = last (map Some (failure_messages events)) None.

Definition two_failures : App.Completion :=
  [ (0, App.Ok (series 20%float)); (1, App.NotOk 500); (2, App.Ok (series 22%float));
    (3, App.NotOk 503); (4, App.Ok (series 24%float)) ].

Definition second_cycle : App.Completion :=
  [ (4, App.Ok (series 34%float)); (3, App.Ok (series 33%float)); (2, App.Ok (series 32%float));
    (1, App.Ok (series 31%float)); (0, App.Ok (series 30%float)) ].

Definition all_fail : App.Completion :=
  [ (2, App.Threw "Failed to fetch"); (0, App.NotOk 500); (1, App.NotOk 500);
    (4, App.NotOk 404); (3, App.Threw "Failed to fetch") ].

(** The first state as the specification words it: an entry with an empty
    series for every device of the catalog. *)
Definition every_device_present (st : App.State) : Prop :=
  forall s : Sensebox,
    In s SENSEBOXES ->
    exists b : Box, App.entry (id s) st = Some b /\ readings b = [].

(** No cycle among the events is one whose [Promise.all] is fulfilled. *)
Definition never_fulfilled (evs : list Effect.Event) : Prop :=
  forall (events : App.Completion) (results : list Box),
    In (Effect.Settle events) evs ->
    App.Promise_all SENSEBOXES events <> App.Fulfilled results.

(** The [Promise.all] of the cycle is not pending any more. *)
Definition settles (events : App.Completion) : Prop :=
  App.Promise_all SENSEBOXES events <> App.Pending.

(** The rule as the specification words it: at most one cycle is between
    its start and its merge. *)
Definition no_overlap (rt : Effect.Runtime) : Prop := Effect.running rt <= 1.

(** What a render of the popup shows, the cells it leaves and the source
    of randomness after it. *)
Definition view_of (x : Result (PopupView.View * PopupView.Cells) * Random)
  : Result PopupView.View :=
  match fst x with
  | Returns (v, _) => Returns v
  | Throws exception => Throws exception
  end.

Definition cells_of (x : Result (PopupView.View * PopupView.Cells) * Random)
  : PopupView.Cells :=
  match fst x with
  | Returns (_, cells) => cells
  | Throws _ => PopupView.unmounted
  end.

Definition random_of (x : Result (PopupView.View * PopupView.Cells) * Random) : Random :=
  snd x.

(** The popup of a box mounted twice, one mount after the other, on the
    same source of randomness. *)
Definition mounted_twice {fmt : Formatting} (b : Box) (r : Random)
  : Result PopupView.View * Result PopupView.View :=
  let first := PopupView.SenseboxPopup b PopupView.unmounted r in
  let second := PopupView.SenseboxPopup b PopupView.unmounted (random_of first) in
  (view_of first, view_of second).

(** A view with the gradient identifiers, and the fill that refers to
    them, blanked. *)
Definition without_gradient_id (c : Chart.View) : Chart.View :=
  {| Chart.header_label := Chart.header_label c;
     Chart.header_value := Chart.header_value c;
     Chart.viewBox := Chart.viewBox c;
     Chart.gradient_id := "";
     Chart.rect_fill := "";
     Chart.stroke := Chart.stroke c;
     Chart.points := Chart.points c;
     Chart.footer_first := Chart.footer_first c;
     Chart.footer_minmax := Chart.footer_minmax c;
     Chart.footer_last := Chart.footer_last c |}.

Definition without_gradient_ids (v : PopupView.View) : PopupView.View :=
  {| PopupView.title := PopupView.title v;
     PopupView.body :=
       match PopupView.body v with
       | PopupView.Measurements timestamp metrics charts =>
           PopupView.Measurements timestamp metrics
             (map (option_map without_gradient_id) charts)
       | PopupView.Message text => PopupView.Message text
       end |}.

Definition without_ids (x : Result PopupView.View) : Result PopupView.View :=
  match x with
  | Returns v => Returns (without_gradient_ids v)
  | Throws exception => Throws exception
  end.

(** The gradient identifiers that a popup mounted on the source [r] draws
    for its four charts, in the order of the charts: one call of
    [Math.random] each. *)
Definition fresh_ids (r : Random) : list (option string) :=
  let c := cursor r in
  map (fun kn =>
         Some ("gradient-" ++ Chart.key (fst kn) ++ "-"
               ++ JS.string_slice 2 9 (draws r (snd kn))))
      [ (Chart.Temperature, c); (Chart.Humidity, S c); (Chart.Illu, S (S c));
        (Chart.Light, S (S (S c))) ].

(** Formatting functions that take every timestamp for a valid date and
    print nothing, for closed examples. *)
Definition silent : Formatting :=
  {| isValid := fun _ => true; format_date := fun _ _ => "";
     toFixed := fun _ _ => ""; toString := fun _ => "" |}.

(** Formatting functions that take no timestamp for a valid date. *)
Definition strict : Formatting :=
  {| isValid := fun _ => false; format_date := fun _ _ => "";
     toFixed := fun _ _ => ""; toString := fun _ => "" |}.

(** A source of randomness whose fifth and later draws differ from the
    first four. *)
Definition two_phase : Random :=
  {| draws := fun n => if Nat.ltb n 4 then "0.4fzyo82mvyr" else "0.k2j8q1z0c7d";
     cursor := 0 |}.

(** The same responses as [first_cycle], coming back in another order. *)
Definition first_cycle_reordered : App.Completion :=
  [ (0, App.Ok (series 10%float)); (1, App.Ok (series 11%float)); (2, App.Ok (series 12%float));
    (3, App.Ok (series 13%float)); (4, App.Ok (series 14%float)) ].

(** A cycle of which only two requests have come back so far. *)
Definition two_answers : App.Completion :=
  [ (3, App.Ok (series 43%float)); (0, App.Ok (series 40%float)) ].

(** A cycle in which every device answers, device 1 with an empty array. *)
Definition one_empty_answer : App.Completion :=
  [ (0, App.Ok (series 50%float)); (1, App.Ok []); (2, App.Ok (series 52%float));
    (3, App.Ok (series 53%float)); (4, App.Ok (series 54%float)) ].

(** What holds of every state the component goes through: the boxes are
    either the initial empty list or one box per catalog entry, in catalog
    order; and while the loading flag is set the state is the initial one. *)
Definition catalog_aligned (st : App.State) : Prop :=
  (App.boxes st = [] \/ map box (App.boxes st) = SENSEBOXES) /\
  (App.loading st = true -> st = App.initial).

(** The charts of a rendered popup. *)
Definition chart_views (v : PopupView.View) : list (option Chart.View) :=
  match PopupView.body v with
  | PopupView.Measurements _ _ charts => charts
  | PopupView.Message _ => []
  end.


(** * Properties *)

(** ** The embedding on concrete inputs *)

Example slice_last_two : JS.slice (-2) [1; 2; 3] = [2; 3].
Proof. reflexivity. Qed.

Example slice_of_short_array : JS.slice (-20) [1; 2; 3] = [1; 2; 3].
Proof. reflexivity. Qed.

(** [slice(-0)] is [slice(0)]: the whole array. *)
Example slice_minus_zero : JS.slice (- 0) [1; 2; 3] = [1; 2; 3].
Proof. reflexivity. Qed.

Example string_slice_of_draw : JS.string_slice 2 9 "0.4fzyo82mvyr" = "4fzyo82".
Proof. reflexivity. Qed.

Example scenario_A_latest :
  option_map temperature (Popup.latest scenario_A) = Some 22.0%float.
Proof. reflexivity. Qed.

Example scenario_A_recent :
  map ts (Popup.recent scenario_A) = ["2024-01-01T10:01:00Z"; "2024-01-01T10:00:00Z"].
Proof. reflexivity. Qed.

Example scenario_A_coords :
  Chart.coords [20.0; 22.0]%float = [(0, 120); (280, 0)]%float.
Proof. vm_compute. reflexivity. Qed.

(** Three readings a tenth apart: the middle point is not at mid-height
    exactly, and a third of the width is rounded. *)
Example rounded_coords :
  Chart.coords [0.1; 0.2; 0.3]%float = [(0, 120); (140, 59.999999999999986); (280, 0)]%float /\
  map fst (Chart.coords [1; 2; 3; 4]%float)
  = [0; 93.333333333333329; 186.66666666666666; 280]%float.
Proof. vm_compute. split; reflexivity. Qed.

(** A range that overflows: the largest value has no place on the chart. *)
Example overflowing_range :
  map (fun xy => PrimFloat.is_nan (snd xy))
      (Chart.coords [1.5e308; -1.5e308]%float) = [true; false].
Proof. vm_compute. reflexivity. Qed.

Example scenario_A_gradient_id :
  match fst (@mounted_twice silent scenario_A two_phase) with
  | Returns v => map (option_map Chart.gradient_id) (chart_views v)
  | Throws _ => []
  end
  = [ Some "gradient-temperature-4fzyo82"; Some "gradient-humidity-4fzyo82";
      Some "gradient-illu-4fzyo82"; Some "gradient-light-4fzyo82" ].
Proof. reflexivity. Qed.

(** A timestamp that is not a date: the popup throws instead of
    rendering. *)
Example invalid_timestamp_throws :
  view_of (@PopupView.SenseboxPopup strict scenario_A PopupView.unmounted two_phase)
  = Throws "RangeError: Invalid time value".
Proof. reflexivity. Qed.

Example promise_all_pending :
  App.Promise_all SENSEBOXES [ (0, App.Ok []); (3, App.Ok []) ] = App.Pending.
Proof. reflexivity. Qed.

Example first_cycle_published :
  published = {| App.boxes := fetched first_cycle; App.loading := false;
                 App.error := None |}.
Proof. reflexivity. Qed.

Example unmounted_result_is_dropped :
  App.fetchData false first_cycle App.initial = App.initial.
Proof. reflexivity. Qed.

(** ** The history window *)

Section Window.
Context {A : Type}.

Lemma slice_negative (w : nat) (xs : list A) :
  0 < w ->
  JS.slice (- Z.of_nat w) xs = skipn (List.length xs - w) xs.
Proof.
  intros Hw. unfold JS.slice.
  assert (Hneg : (- Z.of_nat w <? 0)%Z = true) by (apply Z.ltb_lt; lia).
  rewrite Hneg. f_equal. lia.
Qed.

Lemma slice_negative_length (w : nat) (xs : list A) :
  0 < w ->
  List.length (JS.slice (- Z.of_nat w) xs) = Nat.min (List.length xs) w.
Proof.
  intros Hw. rewrite slice_negative by exact Hw.
  rewrite length_skipn. lia.
Qed.

Lemma slice_negative_suffix (w : nat) (xs : list A) :
  0 < w ->
  (firstn (List.length xs - w) xs ++ JS.slice (- Z.of_nat w) xs)%list = xs.
Proof.
  intros Hw. rewrite slice_negative by exact Hw. apply firstn_skipn.
Qed.

End Window.

Lemma hasData_false (b : Box) : Popup.hasData b = false -> readings b = [].
Proof.
  unfold Popup.hasData. intros H. apply Z.ltb_ge in H.
  destruct (readings b) as [|r rs]; [reflexivity | simpl in H; lia].
Qed.

Lemma history_skipn (b : Box) :
  Popup.history b = skipn (List.length (readings b) - 20) (readings b).
Proof.
  unfold Popup.history. destruct (Popup.hasData b) eqn:H.
  - exact (slice_negative 20 (readings b) ltac:(lia)).
  - rewrite (hasData_false b H). reflexivity.
Qed.

Lemma recent_skipn (b : Box) :
  Popup.recent b = rev (skipn (List.length (readings b) - 5) (readings b)).
Proof.
  unfold Popup.recent, JS.reverse. destruct (Popup.hasData b) eqn:H.
  - f_equal. exact (slice_negative 5 (readings b) ltac:(lia)).
  - rewrite (hasData_false b H). reflexivity.
Qed.

(** C2, counterexample: the list popup shows its window newest first, so
    on the two readings of Scenario A it is not the tail of the series in
    its original order. *)
Lemma recent_is_not_in_original_order : ~ last_in_order Popup.recent 5.
Proof.
  intros H. destruct (H scenario_A) as [_ Heq].
  vm_compute in Heq. discriminate Heq.
Qed.

(** C2, as amended: for a series of length L and a window size [w] of at
    least 1, [slice(-w)] has [min L w] elements, the last [w] of the series
    in their original order.  The chart popup takes this window with the
    fixed size 20 as it is (oldest first, all readings when there are fewer,
    a suffix of the series).  The list popup takes it with the fixed size 5,
    [min L 5] elements, and reverses it (newest first). *)
Theorem history_window_and_recent_list :
  (forall (w : nat) (xs : list Reading),
      0 < w ->
      List.length (JS.slice (- Z.of_nat w) xs) = Nat.min (List.length xs) w /\
      JS.slice (- Z.of_nat w) xs = skipn (List.length xs - w) xs) /\
  last_in_order Popup.history 20 /\
  (forall b : Box,
      (firstn (List.length (readings b) - 20) (readings b) ++ Popup.history b)%list
      = readings b) /\
  (forall b : Box,
      List.length (Popup.recent b) = Nat.min (List.length (readings b)) 5 /\
      Popup.recent b = rev (skipn (List.length (readings b) - 5) (readings b))).
Proof.
  split; [|split; [|split]].
  - intros w xs Hw. split.
    + apply slice_negative_length, Hw.
    + apply slice_negative, Hw.
  - intros b. rewrite history_skipn, length_skipn. split; [lia | reflexivity].
  - intros b. rewrite history_skipn. apply firstn_skipn.
  - intros b. rewrite recent_skipn, length_rev, length_skipn. split; [lia | reflexivity].
Qed.

Lemma history_window_and_recent_list_witness :
  0 < 1 /\
  JS.slice (- Z.of_nat 1) (readings scenario_A)
  = skipn (List.length (readings scenario_A) - 1) (readings scenario_A).
Proof.
  split; [lia|].
  exact (proj2 (proj1 history_window_and_recent_list 1 (readings scenario_A) ltac:(lia))).
Defined.

(** ** The empty series *)

(** C5: a device whose series is empty has no latest reading and an empty
    window, and its popup is the title and the text
    "Keine Daten verfügbar."; no formatting function is called and no
    chart is mounted, whatever the state of the hooks and of the random
    source. *)
Theorem empty_series_renders_no_data
    (fmt : Formatting) (s : Sensebox) (cells : PopupView.Cells) (r : Random) :
  let b := {| box := s; readings := [] |} in
  Popup.latest b = None /\
  Popup.history b = [] /\
  Popup.recent b = [] /\
  PopupView.SenseboxPopup b cells r =
    (Returns ({| PopupView.title := name s;
                 PopupView.body := PopupView.Message "Keine Daten verfügbar." |},
              PopupView.unmounted), r).
Proof.
  cbv zeta. repeat split.
Qed.

(** ** The coordinates of the line chart *)

(** *** Numbers

    Facts about doubles that the chart relies on, from the specification
    of the primitive operations. *)

Lemma nan_spec : Prim2SF nan = S754_nan.
Proof. reflexivity. Qed.







(** * A difference of two different numbers is not zero *)

















(** * The order of the numbers that are not NaN *)













(** *** The points *)

Lemma nth_error_map_from {A B : Type} (f : A -> nat -> B) (xs : list A) :
  forall k i : nat,
    nth_error (JS.map_from f k xs) i = option_map (fun x => f x (k + i)) (nth_error xs i).
Proof.
  induction xs as [|x xs IH]; intros k i.
  - destruct i; reflexivity.
  - destruct i as [|i]; simpl.
    + rewrite Nat.add_0_r. reflexivity.
    + rewrite IH. replace (S k + i) with (k + S i) by lia. reflexivity.
Qed.







(** ** [Promise.all] over the requests of one cycle *)

Section PromiseAll.
Variable catalog : list Sensebox.

Lemma Promise_all_from_eq (slots : list (option Box)) (events : App.Completion) :
  App.Promise_all_from catalog slots events =
  match App.values slots with
  | Some results => App.Fulfilled results
  | None =>
      match events with
      | [] => App.Pending
      | (i, resp) :: rest =>
          match nth_error catalog i, nth_error slots i with
          | Some b, Some None =>
              match App.load b resp with
              | App.Rejected message => App.Rejected message
              | App.Fulfilled value =>
                  App.Promise_all_from catalog (App.set_slot i value slots) rest
              | App.Pending => App.Promise_all_from catalog slots rest
              end
          | _, _ => App.Promise_all_from catalog slots rest
          end
      end
  end.
Proof. destruct events; reflexivity. Qed.

Lemma values_pending {A : Type} (slots : list (option A)) :
  forall d : nat, nth_error slots d = Some None -> App.values slots = None.
Proof.
  induction slots as [|o slots IH]; intros d H.
  - destruct d; discriminate H.
  - destruct d as [|d]; simpl in H.
    + injection H as ->. reflexivity.
    + simpl. destruct o; [|reflexivity]. rewrite (IH d H). reflexivity.
Qed.

Lemma values_None {A : Type} (slots : list (option A)) :
  App.values slots = None -> exists d : nat, nth_error slots d = Some None.
Proof.
  induction slots as [|o slots IH]; simpl; intros H; [discriminate H|].
  destruct o as [x|].
  - destruct (App.values slots); [discriminate H|].
    destruct (IH eq_refl) as [d Hd]. exists (S d). exact Hd.
  - exists 0. reflexivity.
Qed.

Lemma values_Some {A : Type} (slots : list (option A)) :
  forall results : list A, App.values slots = Some results -> slots = map Some results.
Proof.
  induction slots as [|o slots IH]; simpl; intros results H.
  - injection H as <-. reflexivity.
  - destruct o as [x|]; [|discriminate H].
    destruct (App.values slots) as [xs|]; [|discriminate H].
    injection H as <-. simpl. f_equal. apply IH. reflexivity.
Qed.

Lemma set_slot_length {A : Type} (x : A) (slots : list (option A)) :
  forall i : nat, List.length (App.set_slot i x slots) = List.length slots.
Proof.
  induction slots as [|o slots IH]; intros i; [destruct i; reflexivity|].
  destruct i; simpl; [reflexivity | f_equal; apply IH].
Qed.

Lemma set_slot_same {A : Type} (x : A) (slots : list (option A)) :
  forall i : nat, i < List.length slots ->
    nth_error (App.set_slot i x slots) i = Some (Some x).
Proof.
  induction slots as [|o slots IH]; intros i H; simpl in H; [lia|].
  destruct i; simpl; [reflexivity | apply IH; lia].
Qed.

Lemma set_slot_other {A : Type} (x : A) (slots : list (option A)) :
  forall i j : nat, i <> j ->
    nth_error (App.set_slot i x slots) j = nth_error slots j.
Proof.
  induction slots as [|o slots IH]; intros i j H; [destruct i; reflexivity|].
  destruct i, j; simpl; try reflexivity; [congruence | apply IH; lia].
Qed.

(** The first rejection settles [Promise.all]: the requests that came
    back before it fulfilled their promises, and nothing that comes back
    after it matters. *)
Lemma Promise_all_rejects (d : nat) (s : Sensebox) (resp : App.Response) (m : string)
    (post : App.Completion) :
  nth_error catalog d = Some s ->
  App.load s resp = App.Rejected m ->
  forall (pre : App.Completion) (slots : list (option Box)),
    all_ok pre ->
    ~ In d (map fst pre) ->
    nth_error slots d = Some None ->
    App.Promise_all_from catalog slots (pre ++ (d, resp) :: post)%list = App.Rejected m.
Proof.
  intros Hd Hload pre. induction pre as [|[i r] pre IH]; intros slots Hok Hnin Hslot.
  - simpl app. rewrite Promise_all_from_eq, (values_pending slots d Hslot), Hd, Hslot, Hload.
    reflexivity.
  - simpl app. rewrite Promise_all_from_eq, (values_pending slots d Hslot).
    inversion Hok as [|e es Hr Hrest]; subst.
    simpl in Hnin. assert (Hid : i <> d) by tauto. assert (Hnin' : ~ In d (map fst pre)) by tauto.
    destruct r as [body | status | message]; try discriminate Hr.
    destruct (nth_error catalog i) as [b|]; [|apply IH; assumption].
    destruct (nth_error slots i) as [[b'|]|]; try (apply IH; assumption).
    simpl. apply IH; try assumption.
    rewrite set_slot_other by exact Hid. exact Hslot.
Qed.

(** When every request that comes back succeeded and every pending promise
    is among them, [Promise.all] is fulfilled, slot by slot. *)
Lemma Promise_all_fulfils :
  forall (events : App.Completion) (slots : list (option Box)),
    List.length slots = List.length catalog ->
    all_ok events ->
    (forall i : nat, nth_error slots i = Some None -> In i (map fst events)) ->
    exists results : list Box,
      App.Promise_all_from catalog slots events = App.Fulfilled results /\
      List.length results = List.length catalog /\
      forall (i : nat) (s : Sensebox),
        nth_error catalog i = Some s ->
        nth_error results i =
        Some match nth_error slots i with
             | Some (Some b) => b
             | _ => {| box := s; readings := body_of i events |}
             end.
Proof.
  induction events as [|[j r] rest IH]; intros slots Hlen Hok Hin;
    rewrite Promise_all_from_eq; destruct (App.values slots) as [results|] eqn:Hv.
  1, 3: (apply values_Some in Hv; subst slots; rewrite length_map in Hlen;
         exists results; split; [reflexivity | split; [exact Hlen|]];
         intros i s Hs; rewrite nth_error_map;
         assert (Hi : i < List.length results)
           by (rewrite Hlen; apply nth_error_Some; congruence);
         apply nth_error_Some in Hi;
         destruct (nth_error results i); [reflexivity | congruence]).
  - destruct (values_None slots Hv) as [d Hd]. destruct (Hin d Hd).
  - inversion Hok as [|e es Hr Hrest]; subst.
    destruct r as [body | status | message]; try discriminate Hr.
    assert (Hskip :
      nth_error slots j <> Some None ->
      exists results : list Box,
        App.Promise_all_from catalog slots rest = App.Fulfilled results /\
        List.length results = List.length catalog /\
        forall (i : nat) (s : Sensebox),
          nth_error catalog i = Some s ->
          nth_error results i =
          Some match nth_error slots i with
               | Some (Some b) => b
               | _ => {| box := s; readings := body_of i ((j, App.Ok body) :: rest) |}
               end).
    { intros Hj.
      destruct (IH slots Hlen Hrest) as (results & Hres & Hl & Hnth).
      - intros i Hi. destruct (Hin i Hi) as [E | E]; [|exact E].
        simpl in E. subst i. destruct (Hj Hi).
      - exists results. split; [exact Hres | split; [exact Hl|]].
        intros i s Hs. rewrite (Hnth i s Hs).
        destruct (nth_error slots i) as [[b|]|] eqn:Hi; try reflexivity.
        + assert (Hij : j <> i) by (intros ->; apply (Hj Hi)).
          unfold body_of. simpl. apply Nat.eqb_neq in Hij. rewrite Hij. reflexivity.
        + exfalso. apply nth_error_None in Hi.
          assert (i < List.length catalog) by (apply nth_error_Some; congruence). lia. }
    destruct (nth_error catalog j) as [sj|] eqn:Hcj.
    2: { apply Hskip. intros Hj. apply nth_error_None in Hcj.
         assert (j < List.length slots) by (apply nth_error_Some; congruence). lia. }
    destruct (nth_error slots j) as [[bj|]|] eqn:Hsj.
    1, 3: (apply Hskip; intros Hj; congruence).
    simpl.
    assert (Hjlt : j < List.length slots) by (apply nth_error_Some; congruence).
    destruct (IH (App.set_slot j {| box := sj; readings := body |} slots))
      as (results & Hres & Hl & Hnth).
    + rewrite set_slot_length. exact Hlen.
    + exact Hrest.
    + intros i Hi. destruct (Nat.eq_dec j i) as [-> | Hne].
      * rewrite set_slot_same in Hi by exact Hjlt. discriminate Hi.
      * rewrite set_slot_other in Hi by exact Hne.
        destruct (Hin i Hi) as [E | E]; [simpl in E; congruence | exact E].
    + exists results. split; [exact Hres | split; [exact Hl|]].
      intros i s Hs. rewrite (Hnth i s Hs).
      destruct (Nat.eq_dec j i) as [-> | Hne].
      * rewrite set_slot_same by exact Hjlt. rewrite Hsj.
        unfold body_of. simpl. rewrite Nat.eqb_refl. congruence.
      * rewrite set_slot_other by exact Hne.
        destruct (nth_error slots i) as [[b|]|]; try reflexivity;
          unfold body_of; simpl; apply Nat.eqb_neq in Hne; rewrite Hne; reflexivity.
Qed.

End PromiseAll.

Lemma fails_first_rejected (events : App.Completion) (d : nat) (m : string) :
  fails_first events d m ->
  App.Promise_all SENSEBOXES events = App.Rejected m.
Proof.
  intros (pre & post & s & resp & -> & Hok & Hnin & Hd & Hload).
  unfold App.Promise_all.
  apply (Promise_all_rejects SENSEBOXES d s resp m post Hd Hload pre _ Hok Hnin).
  rewrite nth_error_map, Hd. reflexivity.
Qed.

Lemma succeeds_fulfilled (events : App.Completion) :
  succeeds events ->
  App.Promise_all SENSEBOXES events = App.Fulfilled (fetched events).
Proof.
  intros [Hok Hall]. unfold App.Promise_all.
  destruct (Promise_all_fulfils SENSEBOXES events (map (fun _ => None) SENSEBOXES))
    as (results & Hres & Hlen & Hnth).
  - apply length_map.
  - exact Hok.
  - intros i Hi. apply Hall.
    rewrite <- (length_map (fun _ : Sensebox => @None Box)).
    apply nth_error_Some. congruence.
  - rewrite Hres. f_equal. apply nth_error_ext. intros i.
    unfold fetched, JS.mapi. rewrite nth_error_map_from.
    destruct (nth_error SENSEBOXES i) as [s|] eqn:Hs.
    + rewrite (Hnth i s Hs), nth_error_map, Hs. reflexivity.
    + simpl. apply nth_error_None. rewrite Hlen. apply nth_error_None. exact Hs.
Qed.

Lemma fetchData_fails (st : App.State) (events : App.Completion) (d : nat) (m : string) :
  fails_first events d m ->
  App.fetchData true events st =
  {| App.boxes := App.boxes st; App.loading := false; App.error := Some m |}.
Proof.
  intros H. unfold App.fetchData. rewrite (fails_first_rejected events d m H). reflexivity.
Qed.

Lemma fetchData_succeeds (st : App.State) (events : App.Completion) :
  succeeds events ->
  App.fetchData true events st =
  {| App.boxes := fetched events; App.loading := false; App.error := None |}.
Proof.
  intros H. unfold App.fetchData. rewrite (succeeds_fulfilled events H). reflexivity.
Qed.

(** ** One failing device among succeeding ones *)

(** C1, counterexample: in Scenario C the entry of device 0, whose request
    succeeded, is still the one of the previous cycle. *)
Lemma scenario_C_is_not_merged :
  ~ merged_per_device published scenario_C (App.fetchData true scenario_C published).
Proof.
  intros H.
  specialize (H 0 _ (App.Ok (series 20%float)) eq_refl (or_introl eq_refl)).
  vm_compute in H. discriminate H.
Qed.

(** C1, as amended: in a cycle in which the request of one device fails
    while the others succeed, [Promise.all] rejects as a whole: the
    published boxes are those of the previous state for every device (the
    failed device keeps its series, and so do the devices whose requests
    succeeded), the error is the message of the failed request and the
    loading flag is false. *)
Theorem one_failure_keeps_previous_boxes
    (st : App.State) (events : App.Completion) (d : nat) (m : string) :
  only_failure events d m ->
  let next := App.fetchData true events st in
  App.boxes next = App.boxes st /\
  (forall device : nat, App.entry device next = App.entry device st) /\
  App.error next = Some m /\
  App.loading next = false.
Proof.
  intros (pre & post & s & resp & He & Hpre & _ & Hnin & Hd & Hload) next.
  assert (Hf : fails_first events d m) by (exists pre, post, s, resp; auto).
  subst next. rewrite (fetchData_fails st events d m Hf). repeat split.
Qed.

Lemma one_failure_keeps_previous_boxes_witness :
  only_failure scenario_C 2 "Fehler beim Laden von SenseBox 2" /\
  App.boxes (App.fetchData true scenario_C published) = App.boxes published /\
  App.error (App.fetchData true scenario_C published)
  = Some "Fehler beim Laden von SenseBox 2".
Proof.
  assert (H : only_failure scenario_C 2 "Fehler beim Laden von SenseBox 2").
  { exists [ (0, App.Ok (series 20%float)); (1, App.Ok (series 21%float)) ],
           [ (3, App.Ok (series 23%float)); (4, App.Ok (series 24%float)) ],
           {| id := 2; name := "SenseBox 2";
              position := (51.25247128668728, 7.128386842825138)%Q;
              file := "sensebox2.json" |},
           (App.NotOk 500).
    repeat split; try reflexivity.
    - repeat constructor.
    - repeat constructor.
    - simpl. intros [E | [E | []]]; discriminate E. }
  split; [exact H|].
  destruct (one_failure_keeps_previous_boxes published scenario_C 2 _ H)
    as (Hboxes & _ & Herr & _).
  split; [exact Hboxes | exact Herr].
Defined.

(** ** Several failing devices *)

(** C6, counterexample: devices 1 and 3 fail, in this order; the error is
    the message of device 1, not that of device 3. *)
Lemma two_failures_first_wins :
  failure_messages two_failures
  = ["Fehler beim Laden von SenseBox 1"; "Fehler beim Laden von SenseBox 3"] /\
  App.error (App.fetchData true two_failures published)
  = Some "Fehler beim Laden von SenseBox 1" /\
  ~ last_failure_wins two_failures (App.fetchData true two_failures published).
Proof.
  split; [reflexivity | split; [reflexivity|]].
  intros H. vm_compute in H. discriminate H.
Qed.

Lemma failure_messages_all_ok (events : App.Completion) :
  all_ok events -> failure_messages events = [].
Proof.
  induction 1 as [|[i r] es Hr _ IH]; [reflexivity|].
  simpl. rewrite IH. destruct r; try discriminate Hr.
  destruct (nth_error SENSEBOXES i); reflexivity.
Qed.

(** C6, as amended: when several requests fail in one cycle, the error is
    the message of the first failure in the order in which the requests
    come back; later failures of the same cycle are not looked at.  The
    outcome is a function of that order. *)
Theorem first_failure_wins
    (st : App.State) (events : App.Completion) (d : nat) (m : string) :
  fails_first events d m ->
  hd_error (failure_messages events) = Some m /\
  App.error (App.fetchData true events st) = hd_error (failure_messages events).
Proof.
  intros Hf. rewrite (fetchData_fails st events d m Hf). simpl.
  destruct Hf as (pre & post & s & resp & -> & Hok & _ & Hd & Hload).
  assert (Hhd : hd_error (failure_messages (pre ++ (d, resp) :: post)%list) = Some m).
  { unfold failure_messages. rewrite flat_map_app.
    fold (failure_messages pre). rewrite (failure_messages_all_ok pre Hok).
    simpl. rewrite Hd, Hload. reflexivity. }
  rewrite Hhd. split; reflexivity.
Qed.

Lemma first_failure_wins_witness :
  fails_first two_failures 1 "Fehler beim Laden von SenseBox 1" /\
  App.error (App.fetchData true two_failures published)
  = hd_error (failure_messages two_failures).
Proof.
  assert (H : fails_first two_failures 1 "Fehler beim Laden von SenseBox 1").
  { exists [ (0, App.Ok (series 20%float)) ],
           [ (2, App.Ok (series 22%float)); (3, App.NotOk 503); (4, App.Ok (series 24%float)) ],
           {| id := 1; name := "SenseBox 1";
              position := (51.25234545733288, 7.128517708781204)%Q;
              file := "sensebox1.json" |},
           (App.NotOk 500).
    repeat split; try reflexivity.
    - repeat constructor.
    - simpl. intros [E | []]; discriminate E. }
  split; [exact H|].
  exact (proj2 (first_failure_wins published two_failures 1 _ H)).
Defined.

(** ** The error is cleared by the first successful cycle *)

Lemma cycles_snoc (runs : list App.Completion) (events : App.Completion) (st : App.State) :
  App.cycles (runs ++ [events])%list st = App.fetchData true events (App.cycles runs st).
Proof. unfold App.cycles. rewrite fold_left_app. reflexivity. Qed.

Lemma failing_cycles_keep_boxes (runs : list App.Completion) :
  Forall fails runs ->
  forall st : App.State, App.boxes (App.cycles runs st) = App.boxes st.
Proof.
  induction 1 as [|events runs (d & m & Hf) _ IH]; intros st; [reflexivity|].
  change (App.cycles (events :: runs) st)
    with (App.cycles runs (App.fetchData true events st)).
  rewrite IH, (fetchData_fails st events d m Hf). reflexivity.
Qed.

Lemma failing_cycles_set_error (runs : list App.Completion) (st : App.State) :
  runs <> [] -> Forall fails runs ->
  exists m : string, App.error (App.cycles runs st) = Some m.
Proof.
  intros Hne Hall. destruct (exists_last Hne) as (runs' & events & ->).
  apply Forall_app in Hall. destruct Hall as [_ Hlast].
  inversion Hlast as [|e es (d & m & Hf) _]; subst.
  exists m. rewrite cycles_snoc, (fetchData_fails _ events d m Hf). reflexivity.
Qed.

(** C8: after one or more failed cycles the error is set and the boxes are
    the previous ones; the first cycle after them in which every request
    succeeds publishes the new boxes and resets the error to [null]. *)
Theorem success_clears_error
    (st : App.State) (failed : list App.Completion) (ok : App.Completion) :
  failed <> [] ->
  Forall fails failed ->
  succeeds ok ->
  (exists m : string, App.error (App.cycles failed st) = Some m) /\
  App.boxes (App.cycles failed st) = App.boxes st /\
  App.cycles (failed ++ [ok])%list st =
  {| App.boxes := fetched ok; App.loading := false; App.error := None |}.
Proof.
  intros Hne Hfailed Hok. split; [|split].
  - apply failing_cycles_set_error; assumption.
  - apply failing_cycles_keep_boxes, Hfailed.
  - rewrite cycles_snoc. apply fetchData_succeeds, Hok.
Qed.

Lemma scenario_C_fails : fails scenario_C.
Proof.
  exists 2, "Fehler beim Laden von SenseBox 2".
  exists [ (0, App.Ok (series 20%float)); (1, App.Ok (series 21%float)) ],
         [ (3, App.Ok (series 23%float)); (4, App.Ok (series 24%float)) ],
         {| id := 2; name := "SenseBox 2";
            position := (51.25247128668728, 7.128386842825138)%Q;
            file := "sensebox2.json" |},
         (App.NotOk 500).
  repeat split; try reflexivity.
  - repeat constructor.
  - simpl. intros [E | [E | []]]; discriminate E.
Defined.

Lemma second_cycle_succeeds : succeeds second_cycle.
Proof.
  split.
  - repeat constructor.
  - intros i Hi. simpl in Hi |- *.
    destruct i as [|[|[|[|[|i]]]]]; try lia; tauto.
Defined.

Lemma success_clears_error_witness :
  [scenario_C] <> [] /\ Forall fails [scenario_C] /\ succeeds second_cycle /\
  App.cycles [scenario_C; second_cycle] published =
  {| App.boxes := fetched second_cycle; App.loading := false; App.error := None |}.
Proof.
  assert (Hne : [scenario_C] <> []) by discriminate.
  assert (Hf : Forall fails [scenario_C]) by (constructor; [exact scenario_C_fails | constructor]).
  split; [exact Hne | split; [exact Hf | split; [exact second_cycle_succeeds|]]].
  exact (proj2 (proj2 (success_clears_error published [scenario_C] second_cycle
                         Hne Hf second_cycle_succeeds))).
Defined.

(** ** The loading flag *)

Lemma run_app (rt : Effect.Runtime) (evs evs' : list Effect.Event) :
  Effect.run rt (evs ++ evs')%list = Effect.run (Effect.run rt evs) evs'.
Proof. apply fold_left_app. Qed.

Lemma ticks_start_cycles (n : nat) :
  forall st mounted k,
    Effect.run {| Effect.state := st; Effect.isMounted := mounted;
                  Effect.interval := true; Effect.running := k |}
               (repeat Effect.Tick n)
    = {| Effect.state := st; Effect.isMounted := mounted;
         Effect.interval := true; Effect.running := n + k |}.
Proof.
  induction n as [|n IH]; intros st mounted k; [reflexivity|].
  simpl repeat. unfold Effect.run in *. simpl fold_left. rewrite IH.
  f_equal. lia.
Qed.

Lemma fetchData_loading (mounted : bool) (events : App.Completion) (st : App.State) :
  App.loading st = false -> App.loading (App.fetchData mounted events st) = false.
Proof.
  intros H. unfold App.fetchData.
  destruct (App.Promise_all SENSEBOXES events); destruct mounted; simpl; auto.
Qed.

Lemma loading_stays_false (evs : list Effect.Event) :
  forall rt : Effect.Runtime,
    App.loading (Effect.state rt) = false ->
    App.loading (Effect.state (Effect.run rt evs)) = false.
Proof.
  induction evs as [|ev evs IH]; intros rt H; [exact H|].
  change (Effect.run rt (ev :: evs)) with (Effect.run (Effect.step rt ev) evs).
  apply IH. destruct ev as [|events|]; simpl.
  - destruct (Effect.interval rt); exact H.
  - destruct (Effect.running rt); [exact H|].
    destruct (App.Promise_all SENSEBOXES events) eqn:E; try exact H;
      simpl; apply fetchData_loading, H.
  - exact H.
Qed.

(** What the header shows when the loading line is not rendered: the error
    line, if there is a non-empty message. *)
Lemma status_without_loading (st : App.State) :
  App.loading st = false ->
  App.status (App.render st) =
  match App.error st with
  | Some message => if App.truthy message then [message] else []
  | None => []
  end.
Proof. intros H. unfold App.render. simpl. rewrite H. reflexivity. Qed.

(** C10: from the mount until the first cycle settles, whatever the number
    of ticks in between, the loading flag is true and the header shows the
    loading text.  Once the first cycle has settled, with every request
    successful or with a failure (be it of every device), the flag is
    false and stays false through every later tick, cycle and cleanup, and
    the header shows no loading text any more: its status is the error
    line alone, if there is one. *)
Theorem loading_only_before_first_cycle
    (n : nat) (first : App.Completion) (later : list Effect.Event) :
  fails first \/ succeeds first ->
  let before := Effect.state (Effect.run Effect.mount (repeat Effect.Tick n)) in
  let after :=
    Effect.state
      (Effect.run Effect.mount
         (repeat Effect.Tick n ++ Effect.Settle first :: later)%list) in
  App.loading before = true /\
  App.status (App.render before) = ["Lade Daten…"] /\
  App.loading after = false /\
  App.status (App.render after) =
  match App.error after with
  | Some message => if App.truthy message then [message] else []
  | None => []
  end.
Proof.
  intros Hfirst before after.
  assert (Hbefore : before = App.initial).
  { subst before. unfold Effect.mount. rewrite ticks_start_cycles. reflexivity. }
  assert (Hafter : App.loading after = false).
  { subst after. unfold Effect.mount. rewrite run_app, ticks_start_cycles.
    change (Effect.run ?rt (Effect.Settle first :: later))
      with (Effect.run (Effect.step rt (Effect.Settle first)) later).
    apply loading_stays_false.
    replace (n + 1) with (S n) by lia. simpl.
    destruct Hfirst as [(d & m & Hf) | Hs].
    + rewrite (fails_first_rejected first d m Hf). simpl.
      rewrite (fetchData_fails _ first d m Hf). reflexivity.
    + rewrite (succeeds_fulfilled first Hs). simpl.
      rewrite (fetchData_succeeds _ first Hs). reflexivity. }
  rewrite Hbefore. split; [reflexivity | split; [reflexivity | split; [exact Hafter|]]].
  apply status_without_loading, Hafter.
Qed.

Lemma loading_only_before_first_cycle_witness :
  (fails all_fail \/ succeeds all_fail) /\
  App.status
    (App.render
       (Effect.state
          (Effect.run Effect.mount
             [Effect.Settle all_fail; Effect.Tick; Effect.Settle scenario_C;
              Effect.Cleanup])))
  = ["Fehler beim Laden von SenseBox 2"].
Proof.
  assert (H : fails all_fail \/ succeeds all_fail).
  { left. exists 2, "Failed to fetch".
    exists [], [ (0, App.NotOk 500); (1, App.NotOk 500); (4, App.NotOk 404);
                 (3, App.Threw "Failed to fetch") ],
           {| id := 2; name := "SenseBox 2";
              position := (51.25247128668728, 7.128386842825138)%Q;
              file := "sensebox2.json" |},
           (App.Threw "Failed to fetch").
    repeat split; try reflexivity.
    - constructor.
    - simpl. tauto. }
  split; [exact H|].
  exact (proj2 (proj2 (proj2 (loading_only_before_first_cycle 0 all_fail
                  [Effect.Tick; Effect.Settle scenario_C; Effect.Cleanup] H)))).
Defined.

(** ** The state before the first data *)

(** C4, counterexample: the initial state has no entry for device 0. *)
Lemma initial_state_has_no_entries : ~ every_device_present App.initial.
Proof.
  intros H. destruct (H _ (or_introl eq_refl)) as (b & Hb & _).
  discriminate Hb.
Qed.

Lemma boxes_stay_empty (evs : list Effect.Event) :
  never_fulfilled evs ->
  forall rt : Effect.Runtime,
    App.boxes (Effect.state rt) = [] ->
    App.boxes (Effect.state (Effect.run rt evs)) = [].
Proof.
  induction evs as [|ev evs IH]; intros Hnever rt H; [exact H|].
  change (Effect.run rt (ev :: evs)) with (Effect.run (Effect.step rt ev) evs).
  apply IH.
  - intros events results Hin. apply Hnever. right. exact Hin.
  - destruct ev as [|events|]; simpl.
    + destruct (Effect.interval rt); exact H.
    + destruct (Effect.running rt); [exact H|].
      unfold App.fetchData.
      destruct (App.Promise_all SENSEBOXES events) as [|results|message] eqn:E;
        [exact H | | simpl; destruct (Effect.isMounted rt); exact H].
      destruct (Hnever events results (or_introl eq_refl) E).
    + exact H.
Qed.

Lemma every_device_in_fetched (events : App.Completion) (flag : bool)
    (message : option string) (s : Sensebox) :
  In s SENSEBOXES ->
  exists b : Box,
    App.entry (id s)
      {| App.boxes := fetched events; App.loading := flag; App.error := message |}
    = Some b /\ box b = s.
Proof.
  intros Hin. simpl in Hin.
  destruct Hin as [<- | [<- | [<- | [<- | [<- | []]]]]];
    eexists; (split; [reflexivity | reflexivity]).
Qed.

(** C4, as amended: before any data has arrived the loading flag is true,
    the error is [null] and the list of boxes is empty: no device has an
    entry, no marker is rendered, the status line is the loading text and
    only the map bounds fall back to the positions of the catalog.  The
    list stays empty, through ticks, failed cycles and cleanup, as long as
    no cycle has been fulfilled; an entry for every device exists only
    after a cycle in which every request succeeded has settled, and such a
    cycle gives every device of the catalog its entry. *)
Theorem initial_state_is_loading_and_empty :
  App.loading App.initial = true /\
  App.error App.initial = None /\
  App.boxes App.initial = [] /\
  (forall device : nat, App.entry device App.initial = None) /\
  App.render App.initial =
    {| App.status := ["Lade Daten…"]; App.markers := [];
       App.bounds_of := map position SENSEBOXES |} /\
  (forall evs : list Effect.Event,
      never_fulfilled evs ->
      let st := Effect.state (Effect.run Effect.mount evs) in
      App.boxes st = [] /\ forall device : nat, App.entry device st = None) /\
  (forall (evs : list Effect.Event) (events : App.Completion) (s : Sensebox),
      succeeds events ->
      Effect.isMounted (Effect.run Effect.mount evs) = true ->
      0 < Effect.running (Effect.run Effect.mount evs) ->
      In s SENSEBOXES ->
      exists b : Box,
        App.entry (id s)
          (Effect.state (Effect.run Effect.mount (evs ++ [Effect.Settle events])%list))
        = Some b /\ box b = s).
Proof.
  split; [reflexivity | split; [reflexivity | split; [reflexivity | split;
    [reflexivity | split; [reflexivity | split]]]]].
  - intros evs Hnever st.
    assert (H : App.boxes st = []) by (apply boxes_stay_empty; [exact Hnever | reflexivity]).
    split; [exact H|]. intros device. unfold App.entry. rewrite H. reflexivity.
  - intros evs events s Hs Hm Hr Hin. rewrite run_app.
    destruct (Effect.run Effect.mount evs) as [st m i k]. simpl in Hm, Hr. subst m.
    destruct k as [|k]; [lia|].
    unfold Effect.run. simpl. rewrite (succeeds_fulfilled events Hs). simpl.
    rewrite (fetchData_succeeds st events Hs).
    apply every_device_in_fetched, Hin.
Qed.

Lemma failed_cycles_are_not_fulfilled :
  never_fulfilled [Effect.Tick; Effect.Settle all_fail; Effect.Tick; Effect.Settle scenario_C].
Proof.
  intros events results [E | [E | [E | [E | []]]]]; try discriminate E;
    injection E as <-; vm_compute; discriminate.
Defined.

Lemma initial_state_is_loading_and_empty_witness :
  never_fulfilled [Effect.Tick; Effect.Settle all_fail; Effect.Tick; Effect.Settle scenario_C] /\
  succeeds second_cycle /\
  App.boxes
    (Effect.state
       (Effect.run Effect.mount
          [Effect.Tick; Effect.Settle all_fail; Effect.Tick; Effect.Settle scenario_C])) = [] /\
  exists b : Box,
    App.entry 4
      (Effect.state
         (Effect.run Effect.mount
            ([Effect.Tick; Effect.Settle all_fail; Effect.Tick; Effect.Settle scenario_C]
             ++ [Effect.Settle second_cycle])%list))
    = Some b /\ box b = {| id := 4; name := "SenseBox 4";
                           position := (51.2523240900498, 7.1288515117995805)%Q;
                           file := "sensebox4.json" |}.
Proof.
  split; [exact failed_cycles_are_not_fulfilled | split; [exact second_cycle_succeeds|]].
  destruct initial_state_is_loading_and_empty as (_ & _ & _ & _ & _ & Hempty & Hentry).
  split.
  - exact (proj1 (Hempty _ failed_cycles_are_not_fulfilled)).
  - exact (Hentry [Effect.Tick; Effect.Settle all_fail; Effect.Tick; Effect.Settle scenario_C]
             second_cycle _ second_cycle_succeeds
             eq_refl ltac:(simpl; lia)
             ltac:(simpl; right; right; right; right; left; reflexivity)).
Defined.

(** ** Ticks and running cycles *)

(** C7, counterexample: the first cycle is still running when the first
    tick fires; afterwards two cycles are running. *)
Lemma tick_during_cycle_overlaps :
  ~ no_overlap (Effect.run Effect.mount [Effect.Tick]).
Proof.
  unfold no_overlap. simpl. lia.
Qed.

(** Two overlapping cycles may settle in either order: here the cycle
    that settles last writes its boxes over those of the other one. *)
Example overlapping_cycles_publish_in_settle_order :
  App.boxes
    (Effect.state
       (Effect.run Effect.mount
          [Effect.Tick; Effect.Settle second_cycle; Effect.Settle first_cycle]))
  = fetched first_cycle.
Proof. reflexivity. Qed.

(** C7, as amended: the interval callback is [fetchData] itself, without a
    guard: a tick is neither deferred nor skipped.  While the interval is
    set, every tick starts a further cycle whether or not one is running,
    and leaves the published state alone: after [n] ticks without a
    settled cycle, [n + 1] cycles run side by side.  The results of
    overlapping cycles are written in the order in which their
    [Promise.all] settles, each on top of the state the one before it
    left.  A tick is without effect only after the cleanup has cleared the
    interval. *)
Theorem tick_always_starts_a_cycle :
  (forall rt : Effect.Runtime,
      Effect.interval rt = true ->
      Effect.running (Effect.step rt Effect.Tick) = S (Effect.running rt) /\
      Effect.state (Effect.step rt Effect.Tick) = Effect.state rt) /\
  (forall n : nat,
      Effect.running (Effect.run Effect.mount (repeat Effect.Tick n)) = S n /\
      Effect.state (Effect.run Effect.mount (repeat Effect.Tick n)) = App.initial) /\
  (forall (n : nat) (one other : App.Completion),
      settles one -> settles other ->
      Effect.state
        (Effect.run Effect.mount
           (repeat Effect.Tick (S n) ++ [Effect.Settle one; Effect.Settle other])%list)
      = App.fetchData true other (App.fetchData true one App.initial)) /\
  (forall rt : Effect.Runtime,
      Effect.step (Effect.step rt Effect.Cleanup) Effect.Tick
      = Effect.step rt Effect.Cleanup).
Proof.
  split; [|split; [|split]].
  - intros rt H. simpl. rewrite H. split; reflexivity.
  - intros n. unfold Effect.mount. rewrite ticks_start_cycles. simpl. split; [lia | reflexivity].
  - intros n one other Hone Hother. unfold Effect.mount.
    rewrite run_app, ticks_start_cycles. replace (S n + 1) with (S (S n)) by lia.
    unfold settles in Hone, Hother. unfold Effect.run. simpl.
    destruct (App.Promise_all SENSEBOXES one) eqn:E1; [congruence | |];
      simpl; (destruct (App.Promise_all SENSEBOXES other) eqn:E2; [congruence | |]);
      reflexivity.
  - intros rt. reflexivity.
Qed.

Lemma tick_always_starts_a_cycle_witness :
  settles second_cycle /\ settles scenario_C /\
  Effect.state
    (Effect.run Effect.mount
       [Effect.Tick; Effect.Settle second_cycle; Effect.Settle scenario_C])
  = App.fetchData true scenario_C (App.fetchData true second_cycle App.initial).
Proof.
  assert (H1 : settles second_cycle) by (vm_compute; discriminate).
  assert (H2 : settles scenario_C) by (vm_compute; discriminate).
  split; [exact H1 | split; [exact H2|]].
  exact (proj1 (proj2 (proj2 tick_always_starts_a_cycle)) 0 second_cycle scenario_C H1 H2).
Defined.

(** ** The latest reading and the window *)

Lemma last_cons {A : Type} (l : list A) : forall a d : A, last (a :: l) d = last l a.
Proof.
  induction l as [|b l IH]; intros a d; [reflexivity|].
  change (last (a :: b :: l) d) with (last (b :: l) d).
  rewrite (IH b d), (IH b a). reflexivity.
Qed.


Lemma nth_error_last {A : Type} (l : list A) :
  forall a : A, nth_error (a :: l) (List.length l) = Some (last l a).
Proof.
  induction l as [|b l IH]; intros a; [reflexivity|].
  simpl List.length. simpl nth_error. rewrite (IH b), last_cons. reflexivity.
Qed.

(** The tail of a non-empty array from any index inside it is not empty
    and ends with the last element of the array. *)
Lemma tail_ends_with_last {A : Type} (xs : list A) (n : nat) :
  n < List.length xs ->
  exists (e : A) (es : list A),
    skipn n xs = e :: es /\
    JS.at_index xs (Z.of_nat (List.length xs) - 1) = Some (last es e).
Proof.
  intros Hn.
  destruct (skipn n xs) as [|e es] eqn:Hs.
  - apply (f_equal (@List.length A)) in Hs. rewrite length_skipn in Hs. simpl in Hs. lia.
  - exists e, es. split; [reflexivity|].
    unfold JS.at_index.
    replace (Z.of_nat (List.length xs) - 1 <? 0)%Z with false by (symmetry; apply Z.ltb_ge; lia).
    assert (Hlen : List.length xs = n + S (List.length es)).
    { rewrite <- (firstn_skipn n xs) at 1. rewrite length_app, Hs, length_firstn. simpl. lia. }
    replace (Z.to_nat (Z.of_nat (List.length xs) - 1)) with (n + List.length es) by lia.
    rewrite <- (firstn_skipn n xs) at 1. rewrite Hs.
    rewrite nth_error_app2 by (rewrite length_firstn; lia).
    replace (n + List.length es - List.length (firstn n xs)) with (List.length es)
      by (rewrite length_firstn; lia).
    apply nth_error_last.
Qed.

Lemma history_ends_with_latest (b : Box) :
  readings b <> [] ->
  exists (e : Reading) (es : list Reading),
    Popup.history b = e :: es /\ Popup.latest b = Some (last es e).
Proof.
  intros Hne.
  assert (Hlen : 0 < List.length (readings b))
    by (destruct (readings b); [congruence | simpl; lia]).
  destruct (tail_ends_with_last (readings b) (List.length (readings b) - 20) ltac:(lia))
    as (e & es & Hs & Hl).
  exists e, es. rewrite history_skipn. split; [exact Hs|].
  unfold Popup.latest, Popup.hasData.
  replace (0 <? Z.of_nat (List.length (readings b)))%Z with true
    by (symmetry; apply Z.ltb_lt; lia).
  exact Hl.
Qed.

(** ** Rendering the same series twice *)

(** C9, counterexample: the popup of Scenario A mounted twice gives two
    different outputs. *)
Lemma two_mounts_differ :
  fst (@mounted_twice silent scenario_A two_phase)
  <> snd (@mounted_twice silent scenario_A two_phase).
Proof.
  vm_compute. intros H. discriminate H.
Qed.

Ltac unfold_popup :=
  unfold PopupView.SenseboxPopup, format_parseISO, PopupView.render_chart,
    Chart.LineChart, PopupView.chart_props, useRef.

Ltac by_labels :=
  cbn -[Chart.footer_labels];
  match goal with
  | |- context [Chart.footer_labels ?t] =>
      destruct (Chart.footer_labels t) as [[? ?] | ?]
  end.

Ltac by_cells cells :=
  cbn; try reflexivity;
  destruct (cells Chart.Temperature); cbn;
  destruct (cells Chart.Humidity); cbn;
  destruct (cells Chart.Illu); cbn;
  destruct (cells Chart.Light); reflexivity.

(** Whatever the cells and the draws, the popup of a box is the one of a
    fresh mount on a source that only draws empty texts, up to the
    gradient identifiers; whether it throws does not depend on them. *)
Lemma popup_up_to_gradient_ids
    (fmt : Formatting) (b : Box) (cells : PopupView.Cells) (r : Random) :
  without_ids (view_of (PopupView.SenseboxPopup b cells r))
  = without_ids
      (view_of (PopupView.SenseboxPopup b PopupView.unmounted
                  {| draws := fun _ => ""; cursor := 0 |})).
Proof.
  unfold_popup.
  destruct (Popup.latest b) as [latest|]; [|reflexivity].
  destruct (isValid (ts latest)); [|reflexivity].
  destruct (Popup.history b) as [|e es]; [reflexivity|].
  by_labels; by_cells cells.
Qed.

(** The identifiers of a popup that is mounted and renders. *)
Lemma fresh_mount_ids (fmt : Formatting) (b : Box) (r : Random) (v : PopupView.View) :
  readings b <> [] ->
  view_of (PopupView.SenseboxPopup b PopupView.unmounted r) = Returns v ->
  map (option_map Chart.gradient_id) (chart_views v) = fresh_ids r.
Proof.
  intros Hne. destruct (history_ends_with_latest b Hne) as (e & es & Hh & Hl).
  unfold_popup. rewrite Hl, Hh.
  destruct (isValid (ts (last es e))); [|discriminate].
  by_labels; cbn; intros H; [|discriminate H].
  injection H as <-. reflexivity.
Qed.

(** C9, as amended: the latest reading, the window and the coordinates
    are functions of the series alone, and so is the rendered popup (also
    whether it renders or throws) except for the gradient identifiers of
    its charts.  Each chart draws its identifier from [Math.random] when
    it is mounted and keeps it in a ref: two renders of the same series
    agree on everything but the gradient identifiers (and the fill that
    refers to them); a re-render of a mounted popup gives exactly the
    output of the render before it, whatever [Math.random] returns in
    between; and two separate mounts that render give the same output
    exactly when the identifiers they draw are the same. *)
Theorem render_is_pure_up_to_gradient_ids
    (fmt : Formatting) (b : Box) (cells cells' : PopupView.Cells) (r r' : Random) :
  without_ids (view_of (PopupView.SenseboxPopup b cells r))
  = without_ids (view_of (PopupView.SenseboxPopup b cells' r')) /\
  view_of (PopupView.SenseboxPopup b (cells_of (PopupView.SenseboxPopup b cells r)) r')
  = view_of (PopupView.SenseboxPopup b cells r) /\
  (forall v v' : PopupView.View,
      readings b <> [] ->
      view_of (PopupView.SenseboxPopup b PopupView.unmounted r) = Returns v ->
      view_of (PopupView.SenseboxPopup b PopupView.unmounted r') = Returns v' ->
      map (option_map Chart.gradient_id) (chart_views v) = fresh_ids r /\
      (v = v' <-> fresh_ids r = fresh_ids r')).
Proof.
  split; [|split].
  - rewrite (popup_up_to_gradient_ids fmt b cells r).
    rewrite (popup_up_to_gradient_ids fmt b cells' r'). reflexivity.
  - unfold_popup.
    destruct (Popup.latest b) as [latest|]; [|reflexivity].
    destruct (isValid (ts latest)); [|reflexivity].
    destruct (Popup.history b) as [|e es]; [reflexivity|].
    by_labels; by_cells cells.
  - intros v v' Hne Hv Hv'.
    pose proof (fresh_mount_ids fmt b r v Hne Hv) as Hids.
    pose proof (fresh_mount_ids fmt b r' v' Hne Hv') as Hids'.
    split; [exact Hids|]. split.
    + intros <-. congruence.
    + intros Heq. revert Hv Hv'.
      destruct (history_ends_with_latest b Hne) as (e & es & Hh & Hl).
      unfold_popup. rewrite Hl, Hh.
      destruct (isValid (ts (last es e))); [|discriminate].
      unfold fresh_ids in Heq. cbn in Heq.
      injection Heq as E1 E2 E3 E4.
      by_labels; cbn; intros H H'; [|discriminate H].
      injection H as <-. injection H' as <-.
      unfold JS.string_slice in E1, E2, E3, E4 |- *.
      change (9 - 2) with 7 in E1, E2, E3, E4 |- *.
      rewrite E1, E2, E3, E4. reflexivity.
Qed.

Lemma render_is_pure_up_to_gradient_ids_witness :
  readings scenario_A <> [] /\
  (exists v : PopupView.View,
      view_of (@PopupView.SenseboxPopup silent scenario_A PopupView.unmounted two_phase)
      = Returns v /\
      map (option_map Chart.gradient_id) (chart_views v) = fresh_ids two_phase).
Proof.
  split; [discriminate|].
  eexists. split; [reflexivity|].
  exact (proj1 (proj2 (proj2 (render_is_pure_up_to_gradient_ids silent scenario_A
                                PopupView.unmounted PopupView.unmounted
                                two_phase two_phase))
                 _ _ ltac:(discriminate) eq_refl eq_refl)).
Defined.

(** * Further properties of the code *)

(** ** A successful cycle *)

Lemma body_of_first (i : nat) (body : list Reading) (post : App.Completion) :
  forall pre : App.Completion,
    ~ In i (map fst pre) ->
    body_of i (pre ++ (i, App.Ok body) :: post)%list = body.
Proof.
  unfold body_of. induction pre as [|[j r] pre IH]; simpl; intros Hnin.
  - rewrite Nat.eqb_refl. reflexivity.
  - assert (Hji : j <> i) by tauto. apply Nat.eqb_neq in Hji. rewrite Hji.
    apply IH. tauto.
Qed.

Lemma entry_of_fetched (i : nat) (s : Sensebox) (pre post : App.Completion)
    (body : list Reading) (flag : bool) (message : option string) :
  nth_error SENSEBOXES i = Some s ->
  ~ In i (map fst pre) ->
  App.entry (id s)
    {| App.boxes := fetched (pre ++ (i, App.Ok body) :: post)%list;
       App.loading := flag; App.error := message |}
  = Some {| box := s; readings := body |}.
Proof.
  intros Hi Hnin.
  pose proof (body_of_first i body post pre Hnin) as Hbody.
  destruct i as [|[|[|[|[|i]]]]]; simpl in Hi;
    try (destruct i; discriminate Hi);
    injection Hi as <-; unfold App.entry, fetched; cbn; rewrite Hbody; reflexivity.
Qed.

(** X1: when every request of a cycle succeeds, the published boxes are
    the catalog entries in catalog order, whatever the order in which the
    requests came back, and the entry of each device carries the body of
    its own request (the first response for it). *)
Theorem success_publishes_catalog_order (st : App.State) (events : App.Completion) :
  succeeds events ->
  let next := App.fetchData true events st in
  map box (App.boxes next) = SENSEBOXES /\
  (forall (i : nat) (s : Sensebox) (pre post : App.Completion) (body : list Reading),
      nth_error SENSEBOXES i = Some s ->
      events = (pre ++ (i, App.Ok body) :: post)%list ->
      ~ In i (map fst pre) ->
      App.entry (id s) next = Some {| box := s; readings := body |}).
Proof.
  intros Hs next. subst next. rewrite (fetchData_succeeds st events Hs).
  split; [reflexivity|].
  intros i s pre post body Hi -> Hnin.
  apply entry_of_fetched; assumption.
Qed.

Lemma success_publishes_catalog_order_witness :
  succeeds second_cycle /\
  App.entry 3 (App.fetchData true second_cycle published)
  = Some {| box := {| id := 3; name := "SenseBox 3";
                      position := (51.252534201235335, 7.1285670205907365)%Q;
                      file := "sensebox3.json" |};
            readings := series 33 |}.
Proof.
  split; [exact second_cycle_succeeds|].
  exact (proj2 (success_publishes_catalog_order published second_cycle second_cycle_succeeds)
           3 _ [ (4, App.Ok (series 34%float)) ]
           [ (2, App.Ok (series 32%float)); (1, App.Ok (series 31%float)); (0, App.Ok (series 30%float)) ]
           (series 33%float) eq_refl eq_refl
           ltac:(simpl; intros [E | []]; discriminate E)).
Defined.

Lemma find_unique_key (i : nat) (r : App.Response) :
  forall l : App.Completion,
    NoDup (map fst l) -> In (i, r) l ->
    find (fun e => Nat.eqb (fst e) i) l = Some (i, r).
Proof.
  induction l as [|[j r'] l IH]; simpl; intros Hnd Hin; [destruct Hin|].
  inversion Hnd as [|k ks Hk Hks]; subst.
  destruct Hin as [E | Hin].
  - injection E as -> ->. rewrite Nat.eqb_refl. reflexivity.
  - destruct (Nat.eqb j i) eqn:Hji.
    + apply Nat.eqb_eq in Hji. subst j. exfalso. apply Hk.
      change i with (fst (i, r)). apply in_map, Hin.
    + apply IH; assumption.
Qed.

Lemma find_absent_key (i : nat) :
  forall l : App.Completion,
    ~ In i (map fst l) -> find (fun e => Nat.eqb (fst e) i) l = None.
Proof.
  induction l as [|[j r'] l IH]; simpl; intros Hnin; [reflexivity|].
  assert (Hji : j <> i) by tauto. apply Nat.eqb_neq in Hji. rewrite Hji.
  apply IH. tauto.
Qed.

Lemma body_of_permutation (e1 e2 : App.Completion) :
  NoDup (map fst e1) -> Permutation e1 e2 ->
  forall i : nat, body_of i e1 = body_of i e2.
Proof.
  intros Hnd Hperm i.
  assert (Hnd2 : NoDup (map fst e2))
    by (eapply Permutation_NoDup; [apply Permutation_map, Hperm | exact Hnd]).
  unfold body_of. destruct (in_dec Nat.eq_dec i (map fst e1)) as [Hin | Hnin].
  - apply in_map_iff in Hin. destruct Hin as ([j r] & Hj & Hin). simpl in Hj. subst j.
    rewrite (find_unique_key i r e1 Hnd Hin).
    rewrite (find_unique_key i r e2 Hnd2 (Permutation_in _ Hperm Hin)). reflexivity.
  - rewrite (find_absent_key i e1 Hnin). rewrite (find_absent_key i e2); [reflexivity|].
    intros Hin. apply Hnin.
    eapply Permutation_in; [apply Permutation_map, Permutation_sym, Hperm | exact Hin].
Qed.

(** X2: when every request of a cycle succeeds (each device answering
    once), the published state does not depend on the order in which the
    requests came back. *)
Theorem success_ignores_completion_order
    (st : App.State) (events events' : App.Completion) :
  succeeds events ->
  NoDup (map fst events) ->
  Permutation events events' ->
  App.fetchData true events' st = App.fetchData true events st.
Proof.
  intros [Hok Hall] Hnd Hperm.
  assert (Hs' : succeeds events').
  { split.
    - unfold all_ok in *. rewrite <- Hperm. exact Hok.
    - intros i Hi. eapply Permutation_in; [apply Permutation_map, Hperm | apply Hall, Hi]. }
  rewrite (fetchData_succeeds st events' Hs'), (fetchData_succeeds st events (conj Hok Hall)).
  f_equal. unfold fetched, JS.mapi. simpl.
  rewrite !(body_of_permutation events events' Hnd Hperm). reflexivity.
Qed.

Lemma first_cycle_succeeds : succeeds first_cycle.
Proof.
  split.
  - repeat constructor.
  - intros i Hi. simpl in Hi |- *.
    destruct i as [|[|[|[|[|i]]]]]; try lia; tauto.
Defined.

Lemma success_ignores_completion_order_witness :
  succeeds first_cycle /\ NoDup (map fst first_cycle) /\
  Permutation first_cycle first_cycle_reordered /\
  App.fetchData true first_cycle_reordered App.initial
  = App.fetchData true first_cycle App.initial.
Proof.
  assert (Hnd : NoDup (map fst first_cycle)).
  { simpl. repeat constructor; simpl; intuition discriminate. }
  assert (Hperm : Permutation first_cycle first_cycle_reordered).
  { unfold first_cycle, first_cycle_reordered.
    apply Permutation_sym.
    apply (Permutation_cons_app [ (3, App.Ok (series 13%float)) ]). simpl.
    apply (Permutation_cons_app [ (3, App.Ok (series 13%float)); (4, App.Ok (series 14%float)) ]). simpl.
    apply (Permutation_cons_app [ (3, App.Ok (series 13%float)); (4, App.Ok (series 14%float)) ]). simpl.
    apply Permutation_refl. }
  split; [exact first_cycle_succeeds | split; [exact Hnd | split; [exact Hperm|]]].
  exact (success_ignores_completion_order App.initial first_cycle first_cycle_reordered
           first_cycle_succeeds Hnd Hperm).
Defined.

(** ** A cycle that has not settled *)

Lemma Promise_all_pending (catalog : list Sensebox) (i : nat) :
  forall (events : App.Completion) (slots : list (option Box)),
    all_ok events ->
    nth_error slots i = Some None ->
    ~ In i (map fst events) ->
    App.Promise_all_from catalog slots events = App.Pending.
Proof.
  induction events as [|[j r] rest IH]; intros slots Hok Hslot Hnin;
    rewrite Promise_all_from_eq, (values_pending slots i Hslot); [reflexivity|].
  inversion Hok as [|e es Hr Hrest]; subst.
  simpl in Hnin. assert (Hji : j <> i) by tauto. assert (Hnin' : ~ In i (map fst rest)) by tauto.
  destruct r as [body | status | message]; try discriminate Hr.
  destruct (nth_error catalog j) as [b|]; [|apply IH; assumption].
  destruct (nth_error slots j) as [[b'|]|]; try (apply IH; assumption).
  simpl. apply IH; try assumption.
  rewrite set_slot_other by exact Hji. exact Hslot.
Qed.

(** X3: nothing is published in the middle of a cycle.  As long as the
    request of some device has not come back and none of the others has
    failed, [Promise.all] is pending and the state is the one before the
    cycle, however many requests have succeeded already. *)
Theorem no_partial_publication
    (mounted : bool) (st : App.State) (events : App.Completion) (i : nat) :
  all_ok events ->
  i < List.length SENSEBOXES ->
  ~ In i (map fst events) ->
  App.Promise_all SENSEBOXES events = App.Pending /\
  App.fetchData mounted events st = st.
Proof.
  intros Hok Hi Hnin.
  assert (Hp : App.Promise_all SENSEBOXES events = App.Pending).
  { unfold App.Promise_all. apply (Promise_all_pending SENSEBOXES i); try assumption.
    rewrite nth_error_map.
    destruct (nth_error SENSEBOXES i) eqn:E; [reflexivity|].
    apply nth_error_None in E. lia. }
  split; [exact Hp|]. unfold App.fetchData. rewrite Hp. reflexivity.
Qed.

Lemma no_partial_publication_witness :
  all_ok two_answers /\ 1 < List.length SENSEBOXES /\ ~ In 1 (map fst two_answers) /\
  App.fetchData true two_answers published = published.
Proof.
  assert (Hok : all_ok two_answers) by repeat constructor.
  assert (Hi : 1 < List.length SENSEBOXES) by (simpl; lia).
  assert (Hnin : ~ In 1 (map fst two_answers))
    by (simpl; intros [E | [E | []]]; discriminate E).
  split; [exact Hok | split; [exact Hi | split; [exact Hnin|]]].
  exact (proj2 (no_partial_publication true published two_answers 1 Hok Hi Hnin)).
Defined.

(** ** After the cleanup *)

Lemma fetchData_unmounted (events : App.Completion) (st : App.State) :
  App.fetchData false events st = st.
Proof.
  unfold App.fetchData. destruct (App.Promise_all SENSEBOXES events); reflexivity.
Qed.

Lemma unmounted_run (evs : list Effect.Event) :
  forall rt : Effect.Runtime,
    Effect.isMounted rt = false -> Effect.interval rt = false ->
    Effect.state (Effect.run rt evs) = Effect.state rt /\
    Effect.running (Effect.run rt evs) <= Effect.running rt.
Proof.
  induction evs as [|ev evs IH]; intros [st m i k] Hm Hi;
    [split; [reflexivity | apply Nat.le_refl]|].
  simpl in Hm, Hi. subst m i.
  change (Effect.run ?rt (ev :: evs)) with (Effect.run (Effect.step rt ev) evs).
  destruct ev as [|events|]; simpl.
  - apply IH; reflexivity.
  - destruct k as [|n]; [apply IH; reflexivity|].
    destruct (App.Promise_all SENSEBOXES events) eqn:E; [apply IH; reflexivity | |];
      rewrite fetchData_unmounted;
      destruct (IH {| Effect.state := st; Effect.isMounted := false;
                      Effect.interval := false; Effect.running := n |}
                   eq_refl eq_refl) as [Hs Hn];
      simpl in Hs, Hn; (split; [exact Hs | lia]).
  - apply IH; reflexivity.
Qed.

(** X4: once the cleanup of the effect has run, the state is never written
    again: the requests still under way may come back, succeed or fail,
    and their results are dropped; no tick starts a further cycle. *)
Theorem cleanup_freezes_state (rt : Effect.Runtime) (evs : list Effect.Event) :
  Effect.state (Effect.run rt (Effect.Cleanup :: evs)) = Effect.state rt /\
  Effect.running (Effect.run rt (Effect.Cleanup :: evs)) <= Effect.running rt.
Proof.
  change (Effect.run rt (Effect.Cleanup :: evs))
    with (Effect.run (Effect.step rt Effect.Cleanup) evs).
  apply (unmounted_run evs (Effect.step rt Effect.Cleanup)); reflexivity.
Qed.

(** ** What every state of the component looks like *)

Lemma values_aligned (catalog : list Sensebox) :
  forall (slots : list (option Box)) (results : list Box),
    Forall2 (fun s o => forall b, o = Some b -> box b = s) catalog slots ->
    App.values slots = Some results ->
    map box results = catalog.
Proof.
  intros slots results H. revert results.
  induction H as [|s o catalog' slots' Ho _ IH]; simpl; intros results Hv.
  - injection Hv as <-. reflexivity.
  - destruct o as [b|]; [|discriminate Hv].
    destruct (App.values slots') as [xs|]; [|discriminate Hv].
    injection Hv as <-. simpl. rewrite (Ho b eq_refl), (IH xs eq_refl). reflexivity.
Qed.

Lemma set_slot_aligned (catalog : list Sensebox) (s : Sensebox) (body : list Reading) :
  forall (slots : list (option Box)) (i : nat),
    Forall2 (fun s o => forall b, o = Some b -> box b = s) catalog slots ->
    nth_error catalog i = Some s ->
    Forall2 (fun s o => forall b, o = Some b -> box b = s) catalog
            (App.set_slot i {| box := s; readings := body |} slots).
Proof.
  intros slots i H. revert i.
  induction H as [|s' o catalog' slots' Ho Hrest IH]; intros i Hi.
  - destruct i; discriminate Hi.
  - destruct i as [|i]; simpl in Hi |- *.
    + injection Hi as ->. constructor; [|exact Hrest].
      intros b Hb. injection Hb as <-. reflexivity.
    + constructor; [exact Ho | apply IH, Hi].
Qed.

Lemma Promise_all_from_aligned (catalog : list Sensebox) :
  forall (events : App.Completion) (slots : list (option Box)) (results : list Box),
    Forall2 (fun s o => forall b, o = Some b -> box b = s) catalog slots ->
    App.Promise_all_from catalog slots events = App.Fulfilled results ->
    map box results = catalog.
Proof.
  induction events as [|[j r] rest IH]; intros slots results Hal H;
    rewrite Promise_all_from_eq in H; destruct (App.values slots) as [xs|] eqn:Hv.
  1, 3: (injection H as <-; apply (values_aligned catalog slots xs Hal Hv)).
  - discriminate H.
  - destruct (nth_error catalog j) as [s|] eqn:Hj; [|apply (IH slots results Hal H)].
    destruct (nth_error slots j) as [[b|]|]; try apply (IH slots results Hal H).
    destruct r as [body | status | message]; simpl in H; try discriminate H.
    apply (IH _ results (set_slot_aligned catalog s body slots j Hal Hj) H).
Qed.

Lemma Promise_all_aligned (events : App.Completion) (results : list Box) :
  App.Promise_all SENSEBOXES events = App.Fulfilled results ->
  map box results = SENSEBOXES.
Proof.
  apply Promise_all_from_aligned.
  repeat constructor; intros b Hb; discriminate Hb.
Qed.

Lemma fetchData_aligned (mounted : bool) (events : App.Completion) (st : App.State) :
  catalog_aligned st -> catalog_aligned (App.fetchData mounted events st).
Proof.
  intros Hst. unfold App.fetchData.
  destruct (App.Promise_all SENSEBOXES events) as [|results|message] eqn:E;
    [exact Hst | |]; destruct mounted; simpl; try exact Hst.
  - split; [right; apply (Promise_all_aligned events results E) | discriminate].
  - split; [apply Hst | discriminate].
Qed.

Lemma run_aligned (evs : list Effect.Event) :
  forall rt : Effect.Runtime,
    catalog_aligned (Effect.state rt) ->
    catalog_aligned (Effect.state (Effect.run rt evs)).
Proof.
  induction evs as [|ev evs IH]; intros rt H; [exact H|].
  change (Effect.run rt (ev :: evs)) with (Effect.run (Effect.step rt ev) evs).
  apply IH. destruct ev as [|events|]; simpl.
  - destruct (Effect.interval rt); exact H.
  - destruct (Effect.running rt); [exact H|].
    destruct (App.Promise_all SENSEBOXES events); try exact H;
      simpl; apply fetchData_aligned, H.
  - exact H.
Qed.

(** X5: in every state the component goes through after its mount,
    whatever ticks, settled cycles and cleanup occur, the boxes are either
    the empty list or exactly one box per catalog entry in catalog order;
    while the loading flag is set the state is still the initial one; and
    the positions the map bounds are computed from are always those of the
    catalog. *)
Theorem every_state_is_catalog_aligned (evs : list Effect.Event) :
  let st := Effect.state (Effect.run Effect.mount evs) in
  (App.boxes st = [] \/ map box (App.boxes st) = SENSEBOXES) /\
  (App.loading st = true -> st = App.initial) /\
  App.bounds_of (App.render st) = map position SENSEBOXES.
Proof.
  intros st.
  assert (H : catalog_aligned st).
  { apply run_aligned. split; [left; reflexivity | reflexivity]. }
  destruct H as [Hboxes Hloading]. split; [exact Hboxes | split; [exact Hloading|]].
  unfold App.render. cbn [App.bounds_of]. destruct Hboxes as [E | E].
  - rewrite E. reflexivity.
  - destruct (0 <? Z.of_nat (List.length (App.boxes st)))%Z; [|reflexivity].
    rewrite <- E, map_map. reflexivity.
Qed.

(** X7: the header of every state the component goes through shows at
    most one status line: the loading text, and then the state is the
    initial one; or, with the loading flag off, the error message when
    there is a non-empty one and nothing otherwise (an error whose message
    is the empty string shows no line). *)
Theorem status_shows_one_line_at_most (evs : list Effect.Event) :
  let st := Effect.state (Effect.run Effect.mount evs) in
  (st = App.initial /\ App.status (App.render st) = ["Lade Daten…"]) \/
  (App.loading st = false /\
   App.status (App.render st) =
   match App.error st with
   | Some message => if App.truthy message then [message] else []
   | None => []
   end).
Proof.
  intros st.
  assert (H : catalog_aligned st).
  { apply run_aligned. split; [left; reflexivity | reflexivity]. }
  destruct H as [_ Hloading].
  destruct (App.loading st) eqn:El.
  - left. rewrite (Hloading eq_refl). split; reflexivity.
  - right. split; [reflexivity|]. unfold App.render. simpl. rewrite El. reflexivity.
Qed.

(** ** Where the error message comes from *)

Lemma Promise_all_from_rejected :
  forall (events : App.Completion) (slots : list (option Box)) (m : string),
    App.Promise_all_from SENSEBOXES slots events = App.Rejected m ->
    In m (failure_messages events).
Proof.
  induction events as [|[j r] rest IH]; intros slots m H;
    rewrite Promise_all_from_eq in H; destruct (App.values slots); try discriminate H.
  unfold failure_messages. simpl flat_map. fold (failure_messages rest).
  apply in_or_app.
  destruct (nth_error SENSEBOXES j) as [s|]; [|right; apply (IH slots m H)].
  destruct (nth_error slots j) as [[b|]|]; try (right; apply (IH slots m H)).
  destruct (App.load s r) as [|value|message].
  - right. apply (IH slots m H).
  - right. apply (IH _ m H).
  - left. injection H as ->. left. reflexivity.
Qed.

Lemma failure_messages_origin (events : App.Completion) (m : string) :
  In m (failure_messages events) ->
  exists (i : nat) (s : Sensebox) (resp : App.Response),
    nth_error SENSEBOXES i = Some s /\ In (i, resp) events /\
    App.load s resp = App.Rejected m.
Proof.
  unfold failure_messages. intros H. apply in_flat_map in H.
  destruct H as ([i resp] & Hin & Hm). simpl in Hm.
  destruct (nth_error SENSEBOXES i) as [s|] eqn:Hs; [|destruct Hm].
  destruct (App.load s resp) as [|value|message] eqn:Hl;
    [destruct Hm | destruct Hm |].
  destruct Hm as [-> | []]. exists i, s, resp. auto.
Qed.

(** X6: an error that is in the state after a call of [fetchData] either
    was there before the call, or is the message of a request of this
    cycle that failed: "Fehler beim Laden von " followed by the name of a
    catalog device whose response was not ok, or the message of the
    exception that a request of this cycle threw. *)
Theorem error_comes_from_a_failed_request
    (mounted : bool) (st : App.State) (events : App.Completion) (m : string) :
  App.error (App.fetchData mounted events st) = Some m ->
  App.error st = Some m \/
  exists (i : nat) (s : Sensebox),
    nth_error SENSEBOXES i = Some s /\
    ((exists status : nat,
         In (i, App.NotOk status) events /\ m = "Fehler beim Laden von " ++ name s) \/
     In (i, App.Threw m) events).
Proof.
  unfold App.fetchData.
  destruct (App.Promise_all SENSEBOXES events) as [|results|message] eqn:E;
    destruct mounted; simpl; intros H; auto; try discriminate H.
  injection H as ->. right.
  destruct (failure_messages_origin events m (Promise_all_from_rejected events _ m E))
    as (i & s & resp & Hs & Hin & Hl).
  exists i, s. split; [exact Hs|].
  destruct resp as [body | status | message]; simpl in Hl; try discriminate Hl;
    injection Hl as <-.
  - left. exists status. split; [exact Hin | reflexivity].
  - right. exact Hin.
Qed.

Lemma error_comes_from_a_failed_request_witness :
  App.error (App.fetchData true two_failures published)
  = Some "Fehler beim Laden von SenseBox 1" /\
  (App.error published = Some "Fehler beim Laden von SenseBox 1" \/
   exists (i : nat) (s : Sensebox),
     nth_error SENSEBOXES i = Some s /\
     ((exists status : nat,
          In (i, App.NotOk status) two_failures /\
          "Fehler beim Laden von SenseBox 1" = "Fehler beim Laden von " ++ name s) \/
      In (i, App.Threw "Fehler beim Laden von SenseBox 1") two_failures)).
Proof.
  split; [reflexivity|].
  exact (error_comes_from_a_failed_request true published two_failures _ eq_refl).
Defined.

(** ** The charts and the metrics *)




(** X12: the list of the list popup starts with the latest reading: its
    first row is the reading that the metrics above it show, and with no
    readings both are missing. *)
Theorem recent_starts_with_latest (b : Box) :
  hd_error (Popup.recent b) = Popup.latest b.
Proof.
  destruct (readings b) as [|r0 rs] eqn:Hr.
  - unfold Popup.recent, Popup.latest, Popup.hasData. rewrite Hr. reflexivity.
  - assert (Hlen : 0 < List.length (readings b)) by (rewrite Hr; simpl; lia).
    destruct (tail_ends_with_last (readings b) (List.length (readings b) - 5) ltac:(lia))
      as (e & es & Hs & Hl).
    rewrite recent_skipn, Hs.
    unfold Popup.latest, Popup.hasData.
    replace (0 <? Z.of_nat (List.length (readings b)))%Z with true
      by (symmetry; apply Z.ltb_lt; lia).
    rewrite Hl.
    destruct (@exists_last _ (e :: es) ltac:(discriminate)) as (l' & a & Heq).
    rewrite Heq, rev_app_distr. simpl.
    rewrite <- (last_cons es e a), Heq, last_last. reflexivity.
Qed.

(** ** The gradient identifiers of one popup *)

(** X13: when a freshly mounted popup with readings renders, its four
    charts have four different gradient identifiers, whatever
    [Math.random] returns, even the same text four times: the identifier
    starts with the name of the field of its chart. *)
Theorem gradient_ids_differ_within_a_popup
    (fmt : Formatting) (b : Box) (r : Random) (v : PopupView.View) :
  readings b <> [] ->
  view_of (PopupView.SenseboxPopup b PopupView.unmounted r) = Returns v ->
  let ids := map (option_map Chart.gradient_id) (chart_views v) in
  List.length ids = 4 /\ NoDup ids /\ Forall (fun o => o <> None) ids.
Proof.
  intros Hne Hv ids. subst ids.
  rewrite (fresh_mount_ids fmt b r v Hne Hv). unfold fresh_ids. cbn.
  split; [reflexivity | split].
  - repeat constructor; simpl; intuition discriminate.
  - repeat constructor; discriminate.
Qed.

Lemma gradient_ids_differ_within_a_popup_witness :
  readings scenario_A <> [] /\
  exists v : PopupView.View,
    view_of (@PopupView.SenseboxPopup silent scenario_A PopupView.unmounted two_phase)
    = Returns v /\
    NoDup (map (option_map Chart.gradient_id) (chart_views v)).
Proof.
  split; [discriminate|].
  eexists. split; [reflexivity|].
  exact (proj1 (proj2 (gradient_ids_differ_within_a_popup silent scenario_A two_phase _
                         ltac:(discriminate) eq_refl))).
Defined.

(** ** An empty array is an answer *)

(** X14: a device whose request succeeds with an empty array does not make
    the cycle fail: when every request succeeds the error is reset, the
    device gets an entry with an empty series, and its popup shows
    "Keine Daten verfügbar." while the boxes of the other devices are
    published as usual. *)
Theorem empty_body_is_not_a_failure
    (fmt : Formatting) (st : App.State) (events pre post : App.Completion)
    (i : nat) (s : Sensebox) (cells : PopupView.Cells) (r : Random) :
  succeeds events ->
  nth_error SENSEBOXES i = Some s ->
  events = (pre ++ (i, App.Ok []) :: post)%list ->
  ~ In i (map fst pre) ->
  let next := App.fetchData true events st in
  App.error next = None /\
  map box (App.boxes next) = SENSEBOXES /\
  exists b : Box,
    App.entry (id s) next = Some b /\
    readings b = [] /\
    view_of (PopupView.SenseboxPopup b cells r)
    = Returns {| PopupView.title := name s;
                 PopupView.body := PopupView.Message "Keine Daten verfügbar." |}.
Proof.
  intros Hs Hi He Hnin next. subst next.
  rewrite (fetchData_succeeds st events Hs).
  split; [reflexivity | split; [reflexivity|]].
  exists {| box := s; readings := [] |}. subst events.
  split; [apply entry_of_fetched; assumption | split; reflexivity].
Qed.

Lemma empty_body_is_not_a_failure_witness :
  succeeds one_empty_answer /\
  App.error (App.fetchData true one_empty_answer
               (App.fetchData true scenario_C published)) = None.
Proof.
  assert (Hs : succeeds one_empty_answer).
  { split.
    - repeat constructor.
    - intros i Hi. simpl in Hi |- *.
      destruct i as [|[|[|[|[|i]]]]]; try lia; tauto. }
  split; [exact Hs|].
  exact (proj1 (empty_body_is_not_a_failure silent
                  (App.fetchData true scenario_C published) one_empty_answer
                  [ (0, App.Ok (series 50%float)) ]
                  [ (2, App.Ok (series 52%float)); (3, App.Ok (series 53%float));
                    (4, App.Ok (series 54%float)) ]
                  1 _ PopupView.unmounted two_phase Hs eq_refl eq_refl
                  ltac:(simpl; intros [E | []]; discriminate E))).
Defined.

(** ** Cycles that overlap *)

(** X15: when a cycle in which every request succeeded settles while the
    component is mounted, the state becomes that cycle's boxes with no
    error, whatever was published before and whatever else is running.
    So of two overlapping successful cycles the one that settles last
    stays published, also when it is the one that started first. *)
Theorem last_settled_cycle_is_published
    (rt : Effect.Runtime) (earlier later : App.Completion) :
  Effect.isMounted rt = true ->
  2 <= Effect.running rt ->
  succeeds earlier ->
  succeeds later ->
  Effect.state (Effect.run rt [Effect.Settle earlier; Effect.Settle later])
  = {| App.boxes := fetched later; App.loading := false; App.error := None |} /\
  Effect.running (Effect.run rt [Effect.Settle earlier; Effect.Settle later])
  = Effect.running rt - 2.
Proof.
  intros Hm Hr He Hl. destruct rt as [st m i k]. simpl in Hm, Hr. subst m.
  destruct k as [|[|k]]; try lia.
  unfold Effect.run. simpl.
  rewrite (succeeds_fulfilled earlier He). simpl.
  rewrite (succeeds_fulfilled later Hl). simpl.
  rewrite (fetchData_succeeds _ later Hl). split; [reflexivity | lia].
Qed.

Lemma last_settled_cycle_is_published_witness :
  Effect.isMounted (Effect.run Effect.mount [Effect.Tick]) = true /\
  2 <= Effect.running (Effect.run Effect.mount [Effect.Tick]) /\
  App.boxes
    (Effect.state
       (Effect.run (Effect.run Effect.mount [Effect.Tick])
          [Effect.Settle second_cycle; Effect.Settle first_cycle]))
  = fetched first_cycle.
Proof.
  split; [reflexivity | split; [simpl; lia|]].
  exact (f_equal App.boxes
           (proj1 (last_settled_cycle_is_published
                     (Effect.run Effect.mount [Effect.Tick]) second_cycle first_cycle
                     eq_refl ltac:(simpl; lia)
                     second_cycle_succeeds first_cycle_succeeds))).
Defined.
